(** * grudge.function_registry: functions, their registry and the kernel cache

    A shallow embedding of [grudge/function_registry.py].  Python objects
    that the module mutates (the [dict] held by a registry, the memoization
    attribute that [memoize_in] hangs on a [Function]) live in an explicit
    store; everything the module only passes through (DOF descriptors, call
    arguments, command queues, user callables, numpy, the device) is a
    parameter of the development. *)

From stdpp Require Import gmap strings list.

Open Scope string_scope.
Open Scope list_scope.

(** ** Exceptions and outcomes *)

(** The exceptions that can leave the module.  [FunctionNotFound] is the
    class declared in the module; the others are Python's own.  Those raised
    by the module's code carry the message the code builds; those raised by
    the interpreter carry the offending key or attribute name. *)
Inductive Exn : Type :=
  | TypeError (msg : string)
  | SignatureTypeError
      (* the TypeError of a call whose arguments do not fit the signature *)
  | ValueError (msg : string)
  | KeyError (key : string)
  | FunctionNotFound (msg : string)
  | AttributeError (attr : string)
  | IndexError
  | AssertionError
  | NotImplementedError
  | ExternalError (descr : string).

(** [class FunctionNotFound(KeyError)]: what an [except KeyError:] clause
    catches. *)
Definition isinstance_KeyError (e : Exn) : bool :=
  match e with
  | KeyError _ | FunctionNotFound _ => true
  | _ => false
  end.

Definition isinstance_TypeError (e : Exn) : bool :=
  match e with
  | TypeError _ | SignatureTypeError => true
  | _ => false
  end.

(** What evaluating a Python expression ends in.  [Dangling] is not a Python
    outcome: it marks the use of a reference that the store does not hold,
    which no Python program can produce. *)
Inductive Outcome (A : Type) : Type :=
  | Return (a : A)
  | Raise (e : Exn)
  | Dangling.
Arguments Return {A} a.
Arguments Raise {A} e.
Arguments Dangling {A}.

(** ** Loopy kernels, as the data handed to [lp.make_kernel] *)

#[local] Set Warnings "-register-all".

Inductive Expr : Type :=
  | Variable_ (name : string)
  | Subscript (aggregate index : Expr)
  | Call (function : Expr) (parameters : list Expr).

Record Assignment : Type := mkAssignment
  { assignee : Expr; expression : Expr }.

Record SplitIname : Type := mkSplitIname
  { split_iname_name : string;
    inner_length : nat;
    outer_tag : string;
    inner_tag : string }.

Record LoopKernel : Type := mkLoopKernel
  { domains : string;
    instructions : list Assignment;
    default_offset_auto : bool;
    splits : list SplitIname }.

(** Modelled from the spec: [lp.split_iname] belongs to loopy, which is
    imported.  The spec has it specialise the iteration space into an
    outer/inner two-level tiling; the model records the requested split. *)
Definition lp_split_iname (knl : LoopKernel) (iname : string) (len : nat)
    (outer inner : string) : LoopKernel :=
  {| domains := domains knl;
     instructions := instructions knl;
     default_offset_auto := default_offset_auto knl;
     splits := splits knl ++ [mkSplitIname iname len outer inner] |}.

Definition loc := nat.

(** ** What the module receives from its callers and imports *)

Class Runtime : Type := mkRuntime
  { DOFDesc : Type;   (* grudge.symbolic.primitives.DOFDesc, opaque *)
    Value : Type;     (* a Python value passed to or returned by a call *)
    Queue : Type;     (* the command queue given to [__call__] *)
    Callable : Type;  (* a user-supplied implementation *)
    World : Type;     (* everything outside this module's objects *)
    (* [isinstance(arg, numbers.Number)] *)
    isinstance_Number : Value -> bool;
    (* [Some shape] exactly when [isinstance(arg, np.ndarray)] *)
    ndarray_shape : Value -> option (list nat);
    (* [getattr(np, name)]: [None] when numpy has no such attribute *)
    numpy : string -> option (Value -> Outcome Value);
    (* a built kernel run as [knl(queue, a=arg)]; on success the value is
       the kernel's one output, [out] *)
    run_kernel :
      LoopKernel -> Queue -> Value -> World -> Outcome Value * World }.

Section Registry.

Context {RT : Runtime}.

(** ** Functions *)

(** A [Function] object: its identity together with the attributes that its
    constructor stores and that nothing in the module reassigns.  The
    constructor names the class, which decides method resolution. *)
Inductive Function : Type :=
  | Function_ (self : loc) (identifier : string)
  | CElementwiseUnaryFunction (self : loc) (identifier : string)
  | CBesselFunction (self : loc) (identifier : string)
  | FixedDOFDescExternalFunction (self : loc) (identifier : string)
      (implementation : Callable) (dd : DOFDesc).

Definition identifier (f : Function) : string :=
  match f with
  | Function_ _ i | CElementwiseUnaryFunction _ i | CBesselFunction _ i
  | FixedDOFDescExternalFunction _ i _ _ => i
  end.

Definition object_id (f : Function) : loc :=
  match f with
  | Function_ o _ | CElementwiseUnaryFunction o _ | CBesselFunction o _
  | FixedDOFDescExternalFunction o _ _ _ => o
  end.

(** The class attribute [supports_codegen]; the base class does not set it. *)
Definition supports_codegen (f : Function) : option bool :=
  match f with
  | Function_ _ _ => None
  | CElementwiseUnaryFunction _ _ | CBesselFunction _ _ => Some true
  | FixedDOFDescExternalFunction _ _ _ _ => Some false
  end.

(** ** The store *)

Record Store : Type := mkStore
  { dicts : gmap loc (gmap string Function);
      (* the dict objects, by address *)
    memoize_in_dicts : gmap loc (gmap string LoopKernel);
      (* per Function object, the cache that [memoize_in] attaches to it *)
    next_object : loc;
      (* the identity the next constructed Function receives *)
    make_kernel_calls : list LoopKernel;
      (* one entry per call of [lp.make_kernel], oldest first *)
    world : World }.

Definition Py (A : Type) : Type := Store -> Outcome A * Store.

#[global] Instance Py_ret : MRet Py := fun A a s => (Return a, s).

#[global] Instance Py_bind : MBind Py := fun A B k m s =>
  match m s with
  | (Return a, s') => k a s'
  | (Raise e, s') => (Raise e, s')
  | (Dangling, s') => (Dangling, s')
  end.

Definition raise {A : Type} (e : Exn) : Py A := fun s => (Raise e, s).

(** A pure computation that may raise, run inside [Py]. *)
Definition lift {A : Type} (o : Outcome A) : Py A := fun s => (o, s).

(** [try: body  except <class>: handler]. *)
Definition try_except {A : Type} (body : Py A) (catches : Exn -> bool)
    (handler : Py A) : Py A := fun s =>
  match body s with
  | (Raise e, s') => if catches e then handler s' else (Raise e, s')
  | r => r
  end.

(** *** Dict objects *)

Definition with_dicts (d : gmap loc (gmap string Function)) (s : Store)
    : Store :=
  {| dicts := d;
     memoize_in_dicts := memoize_in_dicts s;
     next_object := next_object s;
     make_kernel_calls := make_kernel_calls s;
     world := world s |}.

(** [{}] *)
Definition dict_new : Py loc := fun s =>
  let l := fresh (dom (dicts s)) in
  (Return l, with_dicts (<[l := ∅]> (dicts s)) s).

(** [d.copy()] *)
Definition dict_copy (d : loc) : Py loc := fun s =>
  match dicts s !! d with
  | Some m =>
      let l := fresh (dom (dicts s)) in
      (Return l, with_dicts (<[l := m]> (dicts s)) s)
  | None => (Dangling, s)
  end.

(** [d[key] = value] *)
Definition dict_setitem (d : loc) (key : string) (value : Function)
    : Py unit := fun s =>
  match dicts s !! d with
  | Some m => (Return tt, with_dicts (<[d := <[key := value]> m]> (dicts s)) s)
  | None => (Dangling, s)
  end.

(** [d[key]] *)
Definition dict_getitem (d : loc) (key : string) : Py Function := fun s =>
  match dicts s !! d with
  | Some m =>
      match m !! key with
      | Some f => (Return f, s)
      | None => (Raise (KeyError key), s)
      end
  | None => (Dangling, s)
  end.

(** [key in d] *)
Definition dict_contains (d : loc) (key : string) : Py bool := fun s =>
  match dicts s !! d with
  | Some m => (Return (bool_decide (is_Some (m !! key))), s)
  | None => (Dangling, s)
  end.

(** ** FunctionRegistry *)

Record FunctionRegistry : Type := mkFunctionRegistry
  { id_to_function : loc }.

(** [FunctionRegistry.__init__(self, id_to_function=None)] *)
Definition FunctionRegistry_init (id_to_function : option loc)
    : Py FunctionRegistry :=
  match id_to_function with
  | None => d ← dict_new; mret (mkFunctionRegistry d)
  | Some d => mret (mkFunctionRegistry d)
  end.

(** Modelled from the spec: [copy] is inherited from pytools' record class,
    which is imported.  [self.copy(id_to_function=d)] makes a new instance
    of the class of [self] with the field replaced: in the spec's words, a
    new registry whose mapping is the one given. *)
Definition FunctionRegistry_copy (self : FunctionRegistry)
    (id_to_function : loc) : Py FunctionRegistry :=
  FunctionRegistry_init (Some id_to_function).

(** [FunctionRegistry.register(self, function)] *)
Definition register (self : FunctionRegistry) (function : Function)
    : Py FunctionRegistry :=
  present ← dict_contains (id_to_function self) (identifier function);
  if (present : bool) then
    raise (ValueError
      ("function '" +:+ identifier function +:+ "' is already registered"))
  else
    new_id_to_function ← dict_copy (id_to_function self);
    _ ← dict_setitem new_id_to_function (identifier function) function;
    FunctionRegistry_copy self new_id_to_function.

(** [FunctionRegistry.__getitem__(self, function_id)] *)
Definition getitem (self : FunctionRegistry) (function_id : string)
    : Py Function :=
  try_except
    (dict_getitem (id_to_function self) function_id)
    isinstance_KeyError
    (raise (FunctionNotFound ("unknown function: '" +:+ function_id +:+ "'"))).

(** [FunctionRegistry.__contains__(self, function_id)] *)
Definition contains (self : FunctionRegistry) (function_id : string)
    : Py bool :=
  dict_contains (id_to_function self) function_id.

(** ** Result descriptors *)

(** [Function.get_result_dofdesc] and its overrides, by class.  [assert]
    is modelled as in a run without [-O]. *)
Definition get_result_dofdesc (f : Function) (arg_dds : list DOFDesc)
    : Outcome DOFDesc :=
  match f with
  | Function_ _ _ => Raise NotImplementedError
  | CElementwiseUnaryFunction _ _ =>
      if Nat.eqb (length arg_dds) 1 then
        match arg_dds !! 0 with
        | Some d => Return d
        | None => Raise IndexError
        end
      else Raise AssertionError
  | CBesselFunction _ _ =>
      if Nat.eqb (length arg_dds) 2 then
        match arg_dds !! 1 with
        | Some d => Return d
        | None => Raise IndexError
        end
      else Raise AssertionError
  | FixedDOFDescExternalFunction _ _ _ dd => Return dd
  end.

(** ** Calling a function *)

(** What the user-supplied callables do, run as
    [implementation(queue, *args, **kwargs)].  A callable is Python code of
    the caller: it sees and may change the whole store, registries and
    kernel caches included, beside the world. *)
Class Implementations : Type := mkImplementations
  { py_call :
      Callable -> Queue -> list Value -> list (string * Value) ->
      Store -> Outcome Value * Store }.

Context {IM : Implementations}.

Definition with_world (w : World) (s : Store) : Store :=
  {| dicts := dicts s;
     memoize_in_dicts := memoize_in_dicts s;
     next_object := next_object s;
     make_kernel_calls := make_kernel_calls s;
     world := w |}.

Definition with_memoize_in_dicts (c : gmap loc (gmap string LoopKernel))
    (s : Store) : Store :=
  {| dicts := dicts s;
     memoize_in_dicts := c;
     next_object := next_object s;
     make_kernel_calls := make_kernel_calls s;
     world := world s |}.

(** A call that leaves the module: it sees and changes the world only. *)
Definition in_world {A : Type} (c : World -> Outcome A * World) : Py A :=
  fun s => let (r, w) := c (world s) in (r, with_world w s).

(** [getattr(np, name)] *)
Definition getattr_np (name : string) : Py (Value -> Outcome Value) :=
  match numpy name with
  | Some func => mret func
  | None => raise (AttributeError name)
  end.

(** Modelled from the spec: [lp.make_kernel] belongs to loopy, which is
    imported.  The spec has it synthesise the kernel from the iteration
    domain and the instructions, with unspecified default memory layout; the
    model returns that description and counts the build. *)
Definition lp_make_kernel (domain : string) (insns : list Assignment)
    : Py LoopKernel := fun s =>
  let knl := mkLoopKernel domain insns true [] in
  (Return knl,
   {| dicts := dicts s;
      memoize_in_dicts := memoize_in_dicts s;
      next_object := next_object s;
      make_kernel_calls := make_kernel_calls s ++ [knl];
      world := world s |}).

(** The cache entry of object [container] under the name [name]. *)
Definition cached (s : Store) (container : loc) (name : string)
    : option LoopKernel :=
  memoize_in_dicts s !! container ≫= fun c => c !! name.

(** Modelled from the spec: [memoize_in] belongs to pytools, which is
    imported.  [@memoize_in(container, name)] on a function without
    arguments: if a result is already cached under that name for this
    object it is reused; otherwise the function runs and its result is
    cached under the name before it is returned. *)
Definition memoize_in (container : loc) (name : string)
    (inner : Py LoopKernel) : Py LoopKernel := fun s =>
  match cached s container name with
  | Some knl => (Return knl, s)
  | None =>
      match inner s with
      | (Return knl, s') =>
          let c := default ∅ (memoize_in_dicts s' !! container) in
          (Return knl,
           with_memoize_in_dicts
             (<[container := <[name := knl]> c]> (memoize_in_dicts s')) s')
      | r => r
      end
  end.

(** [Function.__call__(self, queue, *args, **kwargs)] *)
Definition Function_call (self : Function) (queue : Queue)
    (args : list Value) (kwargs : list (string * Value)) : Py Value :=
  raise (TypeError ("function '" +:+ identifier self +:+ "' is not callable")).

(** The function [knl] nested in [CElementwiseUnaryFunction.__call__],
    before it is decorated; [func_name] and [i] are the variables of the
    enclosing call that it closes over. *)
Definition knl (func_name : string) (i : Expr) : Py LoopKernel :=
  knl ← lp_make_kernel "{[i]: 0<=i<n}"
           [mkAssignment
              (Subscript (Variable_ "out") i)
              (Call (Variable_ func_name) [Subscript (Variable_ "a") i])];
  mret (lp_split_iname knl "i" 128 "g.0" "l.0").

(** [CElementwiseUnaryFunction.__call__(self, queue, arg)] *)
Definition CElementwiseUnaryFunction_call (self : Function) (queue : Queue)
    (arg : Value) : Py Value :=
  let func_name := identifier self in
  if isinstance_Number arg
     || match ndarray_shape arg with
        | Some shape => bool_decide (shape = [])
        | None => false
        end
  then
    func ← getattr_np func_name;
    lift (func arg)
  else
    let cached_name := "map_call_knl_" in
    let i := Variable_ "i" in
    let func_name :=
      if String.eqb (identifier self) "fabs" then "abs" else func_name in
    let cached_name := cached_name +:+ func_name in
    let knl := memoize_in (object_id self) cached_name (knl func_name i) in
    k ← knl;
    in_world (run_kernel k queue arg).

(** [FixedDOFDescExternalFunction.__call__(self, queue, *args, **kwargs)] *)
Definition FixedDOFDescExternalFunction_call (implementation : Callable)
    (queue : Queue) (args : list Value) (kwargs : list (string * Value))
    : Py Value :=
  py_call implementation queue args kwargs.

(** Whether keyword arguments can be bound by a [__call__] with the
    parameters [(self, queue, *args, **kwargs)]: [self] and [queue] are
    given by position, so a keyword of one of these names is a second value
    for the parameter, which is a TypeError. *)
Definition binds_keywords (kwargs : list (string * Value)) : bool :=
  forallb (fun kw => negb (String.eqb kw.1 "self" || String.eqb kw.1 "queue"))
          kwargs.

(** [f(queue, *args, **kwargs)]: the [__call__] of the class of [f], with
    the arguments bound to its parameters. *)
Definition call (f : Function) (queue : Queue) (args : list Value)
    (kwargs : list (string * Value)) : Py Value :=
  match f with
  | Function_ _ _ | CBesselFunction _ _ =>
      if binds_keywords kwargs
      then Function_call f queue args kwargs
      else raise SignatureTypeError
  | CElementwiseUnaryFunction _ _ =>
      match args, kwargs with
      | [arg], [] => CElementwiseUnaryFunction_call f queue arg
      | [], [(name, arg)] =>
          if String.eqb name "arg"
          then CElementwiseUnaryFunction_call f queue arg
          else raise SignatureTypeError
      | _, _ => raise SignatureTypeError
      end
  | FixedDOFDescExternalFunction _ _ implementation _ =>
      if binds_keywords kwargs
      then FixedDOFDescExternalFunction_call implementation queue args kwargs
      else raise SignatureTypeError
  end.

(** ** Constructors and the base registry *)

Definition new_object : Py loc := fun s =>
  (Return (next_object s),
   {| dicts := dicts s;
      memoize_in_dicts := memoize_in_dicts s;
      next_object := S (next_object s);
      make_kernel_calls := make_kernel_calls s;
      world := world s |}).

Definition new_CElementwiseUnaryFunction (identifier : string)
    : Py Function :=
  self ← new_object; mret (CElementwiseUnaryFunction self identifier).

Definition new_CBesselFunction (identifier : string) : Py Function :=
  self ← new_object; mret (CBesselFunction self identifier).

Definition new_FixedDOFDescExternalFunction (identifier : string)
    (implementation : Callable) (dd : DOFDesc) : Py Function :=
  self ← new_object;
  mret (FixedDOFDescExternalFunction self identifier implementation dd).

Definition _make_bfr : Py FunctionRegistry :=
  bfr ← FunctionRegistry_init None;
  f ← new_CElementwiseUnaryFunction "sqrt"; bfr ← register bfr f;
  f ← new_CElementwiseUnaryFunction "exp"; bfr ← register bfr f;
  f ← new_CElementwiseUnaryFunction "fabs"; bfr ← register bfr f;
  f ← new_CElementwiseUnaryFunction "sin"; bfr ← register bfr f;
  f ← new_CElementwiseUnaryFunction "cos"; bfr ← register bfr f;
  f ← new_CBesselFunction "bessel_j"; bfr ← register bfr f;
  f ← new_CBesselFunction "bessel_y"; bfr ← register bfr f;
  mret bfr.

(** The store in which the module body starts to run. *)
Definition initial_store (w : World) : Store :=
  {| dicts := ∅;
     memoize_in_dicts := ∅;
     next_object := 0;
     make_kernel_calls := [];
     world := w |}.

(** [base_function_registry = _make_bfr()], with the store it leaves. *)
Definition base_function_registry (w : World)
    : Outcome FunctionRegistry * Store :=
  _make_bfr (initial_store w).

Definition register_external_function (function_registry : FunctionRegistry)
    (identifier : string) (implementation : Callable) (dd : DOFDesc)
    : Py FunctionRegistry :=
  f ← new_FixedDOFDescExternalFunction identifier implementation dd;
  register function_registry f.

(** ** Notions used to state the properties *)

(** The dict that registry [R] holds in store [s]. *)
Definition mapping (s : Store) (R : FunctionRegistry)
    : option (gmap string Function) :=
  dicts s !! id_to_function R.

(** Every key of the dict is the identifier of the function bound to it. *)
Definition keyed_by_identifier (m : gmap string Function) : Prop :=
  map_Forall (fun k f => identifier f = k) m.

#[global] Instance keyed_by_identifier_dec m : Decision (keyed_by_identifier m).
Proof. unfold keyed_by_identifier. apply _. Defined.

(** Lookup of [function_id] in [R] either succeeds where [in] holds, with
    a function of that identifier, or fails with [FunctionNotFound] where
    [in] does not hold. *)
Definition lookup_total_at (R : FunctionRegistry) (s : Store)
    (function_id : string) : Prop :=
  (contains R function_id s = (Return true, s)
   ∧ ∃ f, getitem R function_id s = (Return f, s)
          ∧ identifier f = function_id)
  ∨ (contains R function_id s = (Return false, s)
     ∧ getitem R function_id s
       = (Raise (FunctionNotFound
                   ("unknown function: '" +:+ function_id +:+ "'")), s)).

(** The operation an identifier stands for, in the spec's words: the
    identifier itself, except that [fabs] stands for [abs]. *)
Definition operation_name (identifier : string) : string :=
  if String.eqb identifier "fabs" then "abs" else identifier.

(** The kernel of an operation, in the spec's words: [out[i] = op(a[i])]
    for [i] in [[0, n)], default memory layout unspecified, the iteration
    split into outer and inner tiles of width 128. *)
Definition elementwise_kernel (op : string) : LoopKernel :=
  {| domains := "{[i]: 0<=i<n}";
     instructions :=
       [mkAssignment
          (Subscript (Variable_ "out") (Variable_ "i"))
          (Call (Variable_ op) [Subscript (Variable_ "a") (Variable_ "i")])];
     default_offset_auto := true;
     splits := [mkSplitIname "i" 128 "g.0" "l.0"] |}.

(** The store after the kernel of [f] has been built and cached. *)
Definition store_with_kernel f s : Store :=
  let op := operation_name (identifier f) in
  {| dicts := dicts s;
     memoize_in_dicts :=
       <[object_id f :=
           <["map_call_knl_" +:+ op := elementwise_kernel op]>
             (default ∅ (memoize_in_dicts s !! object_id f))]>
         (memoize_in_dicts s);
     next_object := next_object s;
     make_kernel_calls :=
       make_kernel_calls s
       ++ [mkLoopKernel (domains (elementwise_kernel op))
             (instructions (elementwise_kernel op)) true []];
     world := world s |}.

(** The argument takes the array path of an elementwise function: it is
    neither a number nor a zero-dimensional ndarray. *)
Definition array_argument (arg : Value) : Prop :=
  isinstance_Number arg = false ∧ ndarray_shape arg ≠ Some [].

(** The [__call__] of the function is code of the module, not a callable
    of the caller: every class but [FixedDOFDescExternalFunction]. *)
Definition own_call (f : Function) : bool :=
  match f with
  | FixedDOFDescExternalFunction _ _ _ _ => false
  | _ => true
  end.

(** The argument takes the scalar path. *)
Definition scalar_argument (arg : Value) : Prop :=
  isinstance_Number arg = true ∨ ndarray_shape arg = Some [].

(** ** Callers *)

(** A caller that registers the functions of a list one after the other,
    each in the registry the previous registration returned, as [_make_bfr]
    does for its seven; the first failure ends it. *)
Fixpoint register_all (self : FunctionRegistry) (functions : list Function)
    : Py FunctionRegistry :=
  match functions with
  | [] => mret self
  | function :: rest => r ← register self function; register_all r rest
  end.

(** A caller that invokes one function on each argument of a list in turn,
    going on whatever a call returns or raises; the store it ends in. *)
Fixpoint call_each (f : Function) (queue : Queue) (args : list Value)
    (s : Store) : Store :=
  match args with
  | [] => s
  | arg :: rest => call_each f queue rest (snd (call f queue [arg] [] s))
  end.

(** The bindings that the seven registrations of [_make_bfr] add to the
    empty dict, each function with the identity it received. *)
Definition base_mapping : gmap string Function :=
  foldl (fun acc f => <[identifier f := f]> acc) ∅
    [CElementwiseUnaryFunction 0 "sqrt";
     CElementwiseUnaryFunction 1 "exp";
     CElementwiseUnaryFunction 2 "fabs";
     CElementwiseUnaryFunction 3 "sin";
     CElementwiseUnaryFunction 4 "cos";
     CBesselFunction 5 "bessel_j";
     CBesselFunction 6 "bessel_y"].

(** The message of the ValueError of [register]. *)
Definition already_registered (identifier : string) : Exn :=
  ValueError ("function '" +:+ identifier +:+ "' is already registered").

(** The message of the FunctionNotFound of [__getitem__]. *)
Definition unknown_function (function_id : string) : Exn :=
  FunctionNotFound ("unknown function: '" +:+ function_id +:+ "'").

End Registry.

(** ** A concrete runtime, for evaluating the definitions *)

Module Example.

(** Python values: integers and floats (both numbers; a float is given by
    the integer it equals), host arrays, and device arrays. *)
Inductive value : Type :=
  | Int (n : Z)
  | Float (x : Z)
  | Ndarray (shape : list nat) (data : list Z)
  | DeviceArray (data : list Z).

Inductive callable : Type :=
  | count_args    (* returns the number of arguments it was given *)
  | always_fails  (* raises *)
  | rebinds_sin.  (* writes ["sin"] into every dict it finds *)

Definition np (name : string) : option (value -> Outcome value) :=
  let unary (on_int : Z -> value) (on_float : Z -> Z) (v : value) :=
    match v with
    | Int n => Return (on_int n)
    | Float x => Return (Float (on_float x))
    | Ndarray shape data => Return (Ndarray shape (on_float <$> data))
    | DeviceArray _ => Raise (TypeError "unsupported operand")
    end in
  if String.eqb name "fabs" then Some (unary (fun n => Float (Z.abs n)) Z.abs)
  else if String.eqb name "abs" then Some (unary (fun n => Int (Z.abs n)) Z.abs)
  else if String.eqb name "negative" then Some (unary (fun n => Int (- n)%Z) Z.opp)
  else None.

(** The device applies the operation named in the kernel's instruction. *)
Definition run (knl : LoopKernel) (queue : nat) (arg : value)
    (w : list string) : Outcome value * list string :=
  match instructions knl, arg with
  | [mkAssignment _ (Call (Variable_ op) _)], DeviceArray data =>
      if String.eqb op "abs"
      then (Return (DeviceArray (Z.abs <$> data)), w ++ ["run " +:+ op])
      else if String.eqb op "negative"
      then (Return (DeviceArray (Z.opp <$> data)), w ++ ["run " +:+ op])
      else (Raise (ExternalError ("no such device function: " +:+ op)), w)
  | _, _ => (Raise (ExternalError "bad kernel argument"), w)
  end.

Definition runtime : Runtime :=
  {| DOFDesc := string;
     Value := value;
     Queue := nat;
     Callable := callable;
     World := list string;
     isinstance_Number := fun v =>
       match v with Int _ | Float _ => true | _ => false end;
     ndarray_shape := fun v =>
       match v with Ndarray shape _ => Some shape | _ => None end;
     numpy := np;
     run_kernel := run |}.

#[local] Existing Instance runtime.

Definition implementations : Implementations :=
  {| py_call := fun c queue args kwargs s =>
       match c with
       | count_args =>
           (Return (Int (Z.of_nat (length args + length kwargs))),
            with_world (world s ++ ["count_args"]) s)
       | always_fails => (Raise (ExternalError "always_fails"), s)
       | rebinds_sin =>
           (Return (Int 0),
            with_dicts
              ((fun m => <["sin" := CBesselFunction 8 "sin"]> m)
                 <$> dicts s) s)
       end |}.

#[local] Existing Instance implementations.

(** The store and registry right after the module body has run. *)
Definition module_store : Store := snd (base_function_registry []).

Definition bfr : FunctionRegistry := mkFunctionRegistry 7.

(** A store with one registry, [small], that binds ["sin"]. *)
Definition small_mapping : gmap string Function :=
  {[ "sin" := CElementwiseUnaryFunction 0 "sin" ]}.

Definition small_store : Store :=
  {| dicts := {[ 0 := small_mapping ]};
     memoize_in_dicts := ∅;
     next_object := 1;
     make_kernel_calls := [];
     world := [] |}.

Definition small : FunctionRegistry := mkFunctionRegistry 0.

(** Functions constructed after [small]: a Bessel function, a second
    function of identifier ["sin"], and the elementwise [fabs]. *)
Definition bessel_j : Function := CBesselFunction 1 "bessel_j".
Definition other_sin : Function := CElementwiseUnaryFunction 5 "sin".
Definition fabs : Function := CElementwiseUnaryFunction 2 "fabs".
Definition cos : Function := CElementwiseUnaryFunction 3 "cos".

Definition rebinder : Function :=
  FixedDOFDescExternalFunction 4 "rebind" rebinds_sin "vol".

(** The handler of a caller that falls back on [cos]. *)
Definition fallback : Py Function := mret cos.

(** [small_store] after [fabs] has been called on a device array: its
    kernel is cached. *)
Definition warm_store : Store :=
  snd (call fabs 0 [DeviceArray [1]%Z] [] small_store).

(** A registry built directly on a dict whose key differs from the
    identifier of the function bound to it:
    [FunctionRegistry({"a": CElementwiseUnaryFunction("b")})]. *)
Definition mismatched_store : Store :=
  {| dicts := {[ 0 := {[ "a" := CElementwiseUnaryFunction 0 "b" ]} ]};
     memoize_in_dicts := ∅;
     next_object := 1;
     make_kernel_calls := [];
     world := [] |}.

Definition mismatched : FunctionRegistry := mkFunctionRegistry 0.

End Example.


(** * Properties *)

Section Properties.

Context {RT : Runtime} {IM : Implementations}.

Implicit Types (R : FunctionRegistry) (f g : Function) (s : Store).
Implicit Types (m : gmap string Function) (k : string).

(** ** Dict operations on an allocated dict *)

Lemma fresh_dict_ne s d m :
  dicts s !! d = Some m → fresh (dom (dicts s)) ≠ d.
Proof.
  intros Hd Heq.
  apply (is_fresh (dom (dicts s))).
  rewrite Heq. apply elem_of_dom. by exists m.
Qed.

Lemma fresh_dict_unallocated s : dicts s !! fresh (dom (dicts s)) = None.
Proof. apply not_elem_of_dom, is_fresh. Qed.

Lemma contains_eq R s m k :
  mapping s R = Some m →
  contains R k s = (Return (bool_decide (is_Some (m !! k))), s).
Proof. unfold mapping, contains, dict_contains. by intros ->. Qed.

Lemma getitem_bound R s m k f :
  mapping s R = Some m → m !! k = Some f →
  getitem R k s = (Return f, s).
Proof.
  unfold mapping, getitem, try_except, dict_getitem.
  by intros -> ->.
Qed.

Lemma getitem_unbound R s m k :
  mapping s R = Some m → m !! k = None →
  getitem R k s
  = (Raise (FunctionNotFound ("unknown function: '" +:+ k +:+ "'")), s).
Proof.
  unfold mapping, getitem, try_except, dict_getitem.
  by intros -> ->.
Qed.

(** What a successful [register] does to the store: one dict is allocated,
    holding the receiver's bindings and the new one; nothing else changes. *)
Lemma register_fresh R f s m :
  mapping s R = Some m →
  m !! identifier f = None →
  register R f s
  = (Return (mkFunctionRegistry (fresh (dom (dicts s)))),
     with_dicts
       (<[fresh (dom (dicts s)) := <[identifier f := f]> m]> (dicts s)) s).
Proof.
  unfold mapping. intros Hm Hf.
  unfold register, mbind, Py_bind, dict_contains. rewrite Hm, Hf.
  rewrite bool_decide_eq_false_2 by (intros [? ?]; done).
  unfold dict_copy. rewrite Hm.
  unfold dict_setitem. cbn [dicts with_dicts].
  rewrite lookup_insert_eq.
  unfold FunctionRegistry_copy, FunctionRegistry_init, mret, Py_ret.
  cbn [dicts with_dicts memoize_in_dicts next_object make_kernel_calls world].
  by rewrite insert_insert_eq.
Qed.

(** A [register] that finds the identifier bound stops at the test. *)
Lemma register_bound R f s m g :
  mapping s R = Some m →
  m !! identifier f = Some g →
  register R f s
  = (Raise (ValueError
              ("function '" +:+ identifier f +:+ "' is already registered")),
     s).
Proof.
  unfold mapping. intros Hm Hf.
  unfold register, mbind, Py_bind, dict_contains. rewrite Hm, Hf.
  by rewrite bool_decide_eq_true_2 by eauto.
Qed.

(** C1. Registration is copy-on-write: for a registry [R] and a function
    [f] whose identifier is not in [R], [R.register(f)] returns a registry
    [R2], distinct from [R], in which the identifier of [f] is present and
    every identifier bound in [R] is bound to the same function; the dict
    of [R] is the one it was, so membership of every identifier in [R],
    that of [f] included, is unchanged, and so is every other object of the
    store. *)
Theorem register_copy_on_write R f s m :
  mapping s R = Some m →
  m !! identifier f = None →
  ∃ R2 s2,
    register R f s = (Return R2, s2)
    ∧ id_to_function R2 ≠ id_to_function R
    ∧ contains R2 (identifier f) s2 = (Return true, s2)
    ∧ getitem R2 (identifier f) s2 = (Return f, s2)
    ∧ (∀ k g, m !! k = Some g → getitem R2 k s2 = (Return g, s2))
    ∧ mapping s2 R = Some m
    ∧ (∀ k, fst (contains R k s2) = fst (contains R k s))
    ∧ fst (contains R (identifier f) s2) = Return false
    ∧ (∀ d, d ≠ id_to_function R2 → dicts s2 !! d = dicts s !! d)
    ∧ memoize_in_dicts s2 = memoize_in_dicts s
    ∧ make_kernel_calls s2 = make_kernel_calls s
    ∧ world s2 = world s.
Proof.
  intros Hm Hf.
  pose proof (fresh_dict_ne _ _ _ Hm) as Hne.
  eexists _, _. split; [by apply register_fresh|].
  set (d := fresh (dom (dicts s))) in *.
  set (s2 := with_dicts _ s).
  assert (HR2 : mapping s2 (mkFunctionRegistry d)
                = Some (<[identifier f := f]> m)).
  { unfold mapping, s2. cbn. apply lookup_insert_eq. }
  assert (HR : mapping s2 R = Some m).
  { unfold mapping, s2. cbn. by rewrite lookup_insert_ne. }
  split; [done|].
  split.
  { rewrite (contains_eq _ _ _ _ HR2), lookup_insert_eq.
    by rewrite bool_decide_eq_true_2. }
  split.
  { apply (getitem_bound _ _ _ _ _ HR2), lookup_insert_eq. }
  split.
  { intros k g Hk. apply (getitem_bound _ _ _ _ _ HR2).
    rewrite lookup_insert_ne; [done|]. intros <-. congruence. }
  split; [done|].
  split.
  { intros k. by rewrite (contains_eq _ _ _ k HR), (contains_eq _ _ _ k Hm). }
  split.
  { rewrite (contains_eq _ _ _ _ HR), Hf.
    by rewrite bool_decide_eq_false_2 by (intros [? ?]; done). }
  split.
  { intros d' Hd'. unfold s2. cbn. by rewrite lookup_insert_ne. }
  done.
Qed.

(** C2. Duplicate registration fails: for a registry [R] and a function
    [f] whose identifier is already bound in [R], [R.register(f)] raises the
    ValueError that names the identifier, whatever function [g] the
    identifier is bound to (equal to [f] or not), and the store, with the
    dict of [R] in it, is left as it was. *)
Theorem register_duplicate_fails R f s m g :
  mapping s R = Some m →
  m !! identifier f = Some g →
  register R f s
  = (Raise (ValueError
              ("function '" +:+ identifier f +:+ "' is already registered")),
     s).
Proof. apply register_bound. Qed.

(** C3 (amended). Lookup is total with a typed failure on every registry
    whose dict binds each key to a function carrying that key as its
    identifier: either the identifier is contained in [R] and [R[id]]
    returns a function whose identifier is [id], or it is not contained and
    [R[id]] raises [FunctionNotFound] with a message quoting [id]. *)
Theorem lookup_total R s m function_id :
  mapping s R = Some m →
  keyed_by_identifier m →
  lookup_total_at R s function_id.
Proof.
  intros Hm Hkeys. unfold lookup_total_at.
  rewrite (contains_eq _ _ _ function_id Hm).
  destruct (m !! function_id) as [f|] eqn:Hf.
  - left. split; [by rewrite bool_decide_eq_true_2 by eauto|].
    exists f. split; [by eapply getitem_bound|by apply Hkeys].
  - right. split.
    + by rewrite bool_decide_eq_false_2 by (intros [? ?]; done).
    + by eapply getitem_unbound.
Qed.

(** *** Registries built through the module keep keys and identifiers
    together *)

Lemma keyed_by_identifier_empty : keyed_by_identifier (∅ : gmap string Function).
Proof. intros k f. by rewrite lookup_empty. Qed.

Lemma keyed_by_identifier_insert m f :
  keyed_by_identifier m → keyed_by_identifier (<[identifier f := f]> m).
Proof.
  intros Hm k g. rewrite lookup_insert.
  case_decide; [by intros [= <-]|by apply Hm].
Qed.

Lemma FunctionRegistry_init_empty s :
  ∃ R s', FunctionRegistry_init None s = (Return R, s')
          ∧ mapping s' R = Some ∅.
Proof.
  eexists _, _. split; [reflexivity|].
  unfold mapping. cbn. apply lookup_insert_eq.
Qed.

Lemma register_keyed_by_identifier R f s m R2 s2 :
  mapping s R = Some m →
  keyed_by_identifier m →
  register R f s = (Return R2, s2) →
  ∃ m2, mapping s2 R2 = Some m2 ∧ keyed_by_identifier m2.
Proof.
  intros Hm Hkeys Hreg.
  destruct (m !! identifier f) as [g|] eqn:Hf.
  - by rewrite (register_bound _ _ _ _ _ Hm Hf) in Hreg.
  - rewrite (register_fresh _ _ _ _ Hm Hf) in Hreg.
    injection Hreg as <- <-.
    exists (<[identifier f := f]> m). split.
    + unfold mapping. cbn. apply lookup_insert_eq.
    + by apply keyed_by_identifier_insert.
Qed.

Lemma base_function_registry_keyed (w : World) :
  ∃ R s m,
    base_function_registry w = (Return R, s)
    ∧ mapping s R = Some m
    ∧ keyed_by_identifier m.
Proof.
  exists (mkFunctionRegistry 7). eexists.
  exists (<[identifier (CBesselFunction 6 "bessel_y")
            := CBesselFunction 6 "bessel_y"]>
          (<[identifier (CBesselFunction 5 "bessel_j")
             := CBesselFunction 5 "bessel_j"]>
          (<[identifier (CElementwiseUnaryFunction 4 "cos")
             := CElementwiseUnaryFunction 4 "cos"]>
          (<[identifier (CElementwiseUnaryFunction 3 "sin")
             := CElementwiseUnaryFunction 3 "sin"]>
          (<[identifier (CElementwiseUnaryFunction 2 "fabs")
             := CElementwiseUnaryFunction 2 "fabs"]>
          (<[identifier (CElementwiseUnaryFunction 1 "exp")
             := CElementwiseUnaryFunction 1 "exp"]>
          (<[identifier (CElementwiseUnaryFunction 0 "sqrt")
             := CElementwiseUnaryFunction 0 "sqrt"]> ∅))))))).
  split; [vm_compute; reflexivity|].
  split; [vm_compute; reflexivity|].
  repeat apply keyed_by_identifier_insert.
  apply keyed_by_identifier_empty.
Qed.

(** ** Descriptors of results *)

(** C7. An elementwise unary function's [get_result_dofdesc] returns [d]
    on the one-element list [[d]], and fails its arity assertion on every
    list whose length is not 1. *)
Theorem unary_result_dofdesc (self : loc) (id : string) :
  (∀ d : DOFDesc,
     get_result_dofdesc (CElementwiseUnaryFunction self id) [d] = Return d)
  ∧ (∀ arg_dds : list DOFDesc,
       length arg_dds ≠ 1 →
       get_result_dofdesc (CElementwiseUnaryFunction self id) arg_dds
       = Raise AssertionError).
Proof.
  split; [done|].
  intros arg_dds Hlen. cbn.
  by destruct (Nat.eqb_spec (length arg_dds) 1).
Qed.

(** C8. A special two-argument function's [get_result_dofdesc] returns
    [d1] on [[d0; d1]], and fails its arity assertion on every list whose
    length is not 2. *)
Theorem bessel_result_dofdesc (self : loc) (id : string) :
  (∀ d0 d1 : DOFDesc,
     get_result_dofdesc (CBesselFunction self id) [d0; d1] = Return d1)
  ∧ (∀ arg_dds : list DOFDesc,
       length arg_dds ≠ 2 →
       get_result_dofdesc (CBesselFunction self id) arg_dds
       = Raise AssertionError).
Proof.
  split; [done|].
  intros arg_dds Hlen. cbn.
  by destruct (Nat.eqb_spec (length arg_dds) 2).
Qed.

(** ** Calls *)

(** C6 (amended). A function whose class does not override [__call__]
    fails with a TypeError and leaves the store as it was, for every queue,
    every argument list and all keyword arguments; where no keyword
    argument is named [queue] or [self], so that the arguments bind to
    [(self, queue, *args, **kwargs)], it is the TypeError that says the
    function of that identifier is not callable.  So it is in particular
    for the two Bessel functions that lookup in the base registry
    returns. *)
Theorem not_callable_raises :
  (∀ self id queue args kwargs s,
     ∃ e, call (Function_ self id) queue args kwargs s = (Raise e, s)
          ∧ isinstance_TypeError e = true
          ∧ (binds_keywords kwargs = true →
               e = TypeError ("function '" +:+ id +:+ "' is not callable")))
  ∧ (∀ self id queue args kwargs s,
       ∃ e, call (CBesselFunction self id) queue args kwargs s = (Raise e, s)
            ∧ isinstance_TypeError e = true
            ∧ (binds_keywords kwargs = true →
                 e = TypeError ("function '" +:+ id +:+ "' is not callable")))
  ∧ (∀ w, ∃ bfr s0 j y,
       base_function_registry w = (Return bfr, s0)
       ∧ getitem bfr "bessel_j" s0 = (Return j, s0)
       ∧ getitem bfr "bessel_y" s0 = (Return y, s0)
       ∧ ∀ queue args kwargs s,
           binds_keywords kwargs = true →
           call j queue args kwargs s
           = (Raise (TypeError "function 'bessel_j' is not callable"), s)
           ∧ call y queue args kwargs s
             = (Raise (TypeError "function 'bessel_y' is not callable"), s)).
Proof.
  split; [|split].
  - intros self id queue args kwargs s. cbn [call].
    destruct (binds_keywords kwargs); eexists; (split; [reflexivity|]);
      (split; [reflexivity|]); [done|discriminate].
  - intros self id queue args kwargs s. cbn [call].
    destruct (binds_keywords kwargs); eexists; (split; [reflexivity|]);
      (split; [reflexivity|]); [done|discriminate].
  - intros w.
    exists (mkFunctionRegistry 7).
    eexists _, (CBesselFunction 5 "bessel_j"), (CBesselFunction 6 "bessel_y").
    split; [vm_compute; reflexivity|].
    split; [vm_compute; reflexivity|].
    split; [vm_compute; reflexivity|].
    intros queue args kwargs s Hbind. cbn [call]. by rewrite Hbind.
Qed.


(** *** The two paths of an elementwise call *)

Lemma scalar_test_true (arg : Value) :
  scalar_argument arg →
  isinstance_Number arg
  || match ndarray_shape arg with
     | Some shape => bool_decide (shape = [])
     | None => false
     end = true.
Proof.
  intros [-> | ->]; [done|].
  rewrite bool_decide_eq_true_2 by done. apply orb_true_r.
Qed.

Lemma scalar_test_false (arg : Value) :
  array_argument arg →
  isinstance_Number arg
  || match ndarray_shape arg with
     | Some shape => bool_decide (shape = [])
     | None => false
     end = false.
Proof.
  intros [-> Hshape]. cbn.
  destruct (ndarray_shape arg) as [shape|]; [|done].
  apply bool_decide_eq_false_2. congruence.
Qed.

Lemma scalar_path f (queue : Queue) (arg : Value) s :
  scalar_argument arg →
  CElementwiseUnaryFunction_call f queue arg s
  = (match numpy (identifier f) with
     | Some func => func arg
     | None => Raise (AttributeError (identifier f))
     end, s).
Proof.
  intros Harg. unfold CElementwiseUnaryFunction_call.
  rewrite (scalar_test_true _ Harg).
  unfold mbind, Py_bind, getattr_np.
  by destruct (numpy (identifier f)).
Qed.

Lemma array_path_cached f (queue : Queue) (arg : Value) s knl0 :
  array_argument arg →
  cached s (object_id f) ("map_call_knl_" +:+ operation_name (identifier f))
  = Some knl0 →
  CElementwiseUnaryFunction_call f queue arg s
  = in_world (run_kernel knl0 queue arg) s.
Proof.
  intros Harg Hc. unfold CElementwiseUnaryFunction_call.
  rewrite (scalar_test_false _ Harg).
  unfold mbind, Py_bind, memoize_in.
  fold (operation_name (identifier f)). by rewrite Hc.
Qed.

Lemma array_path_uncached f (queue : Queue) (arg : Value) s :
  array_argument arg →
  cached s (object_id f) ("map_call_knl_" +:+ operation_name (identifier f))
  = None →
  CElementwiseUnaryFunction_call f queue arg s
  = in_world (run_kernel (elementwise_kernel (operation_name (identifier f)))
                         queue arg)
             (store_with_kernel f s).
Proof.
  intros Harg Hc. unfold CElementwiseUnaryFunction_call.
  rewrite (scalar_test_false _ Harg).
  unfold mbind, Py_bind, memoize_in.
  fold (operation_name (identifier f)). by rewrite Hc.
Qed.

Lemma cached_store_with_kernel f s :
  cached (store_with_kernel f s) (object_id f)
         ("map_call_knl_" +:+ operation_name (identifier f))
  = Some (elementwise_kernel (operation_name (identifier f))).
Proof.
  unfold cached, store_with_kernel. cbn.
  rewrite lookup_insert_eq. cbn. apply lookup_insert_eq.
Qed.

Lemma in_world_store {A : Type} (c : World → Outcome A * World) s :
  in_world c s = (fst (c (world s)), with_world (snd (c (world s))) s).
Proof. unfold in_world. by destruct (c (world s)). Qed.

(** C4. The array path of an elementwise function caches its kernel on the
    function object under the name ["map_call_knl_"] followed by the
    operation name, which is the identifier except that [fabs] gives [abs].
    A kernel cached under that name for the object is the one that runs,
    and nothing is built; without one, exactly one kernel, that of the
    operation, is built and cached.  After a call the kernel is cached, a
    second call on the same object runs the same kernel and builds nothing:
    two calls build at most one kernel. *)
Theorem kernel_built_at_most_once (self : loc) (id : string)
    (queue : Queue) (arg1 arg2 : Value) s :
  array_argument arg1 →
  array_argument arg2 →
  let f := CElementwiseUnaryFunction self id in
  let op := if String.eqb id "fabs" then "abs" else id in
  let s1 := snd (call f queue [arg1] [] s) in
  let s2 := snd (call f queue [arg2] [] s1) in
  (∀ knl0,
     cached s self ("map_call_knl_" +:+ op) = Some knl0 →
     call f queue [arg1] [] s = in_world (run_kernel knl0 queue arg1) s
     ∧ make_kernel_calls s1 = make_kernel_calls s)
  ∧ (cached s self ("map_call_knl_" +:+ op) = None →
     fst (call f queue [arg1] [] s)
     = fst (run_kernel (elementwise_kernel op) queue arg1 (world s))
     ∧ (∃ built,
          make_kernel_calls s1 = make_kernel_calls s ++ [built]
          ∧ lp_split_iname built "i" 128 "g.0" "l.0" = elementwise_kernel op)
     ∧ cached s1 self ("map_call_knl_" +:+ op)
       = Some (elementwise_kernel op))
  ∧ (∃ knl1,
       cached s1 self ("map_call_knl_" +:+ op) = Some knl1
       ∧ cached s2 self ("map_call_knl_" +:+ op) = Some knl1
       ∧ fst (call f queue [arg2] [] s1)
         = fst (run_kernel knl1 queue arg2 (world s1)))
  ∧ make_kernel_calls s2 = make_kernel_calls s1
  ∧ (length (make_kernel_calls s2) ≤ S (length (make_kernel_calls s)))%nat.
Proof.
  intros Harg1 Harg2 f op s1 s2.
  set (key := "map_call_knl_" +:+ op) in *.
  assert (Hreuse : ∀ (arg : Value) s' knl0,
            array_argument arg →
            cached s' self key = Some knl0 →
            call f queue [arg] [] s'
            = (fst (run_kernel knl0 queue arg (world s')),
               with_world (snd (run_kernel knl0 queue arg (world s'))) s')).
  { intros arg s' knl0 Harg Hc.
    change (call f queue [arg] [] s')
      with (CElementwiseUnaryFunction_call f queue arg s').
    rewrite (array_path_cached f queue arg s' knl0 Harg Hc).
    apply in_world_store. }
  assert (Hbuild : cached s self key = None →
            call f queue [arg1] [] s
            = (fst (run_kernel (elementwise_kernel op) queue arg1 (world s)),
               with_world
                 (snd (run_kernel (elementwise_kernel op) queue arg1
                                  (world s)))
                 (store_with_kernel f s))).
  { intros Hc.
    change (call f queue [arg1] [] s)
      with (CElementwiseUnaryFunction_call f queue arg1 s).
    rewrite (array_path_uncached f queue arg1 s Harg1 Hc).
    exact (in_world_store _ (store_with_kernel f s)). }
  assert (Hs1 : ∃ knl1, cached s1 self key = Some knl1
                        ∧ (length (make_kernel_calls s1)
                           ≤ S (length (make_kernel_calls s)))%nat).
  { destruct (cached s self key) as [knl0|] eqn:Hc.
    - exists knl0. unfold s1. rewrite (Hreuse _ _ _ Harg1 Hc). cbn.
      split; [exact Hc|lia].
    - eexists. unfold s1. rewrite (Hbuild eq_refl).
      cbn [snd]. split.
      + apply (cached_store_with_kernel f s).
      + cbn. rewrite length_app. cbn. lia. }
  destruct Hs1 as (knl1 & Hc1 & Hlen).
  assert (Hs2 : make_kernel_calls s2 = make_kernel_calls s1).
  { unfold s2. by rewrite (Hreuse _ _ _ Harg2 Hc1). }
  split.
  { intros knl0 Hc. split.
    - rewrite (Hreuse _ _ _ Harg1 Hc). symmetry. apply in_world_store.
    - unfold s1. by rewrite (Hreuse _ _ _ Harg1 Hc). }
  split.
  { intros Hc. unfold s1. rewrite (Hbuild Hc). cbn [fst snd].
    split; [done|]. split.
    - eexists. split; reflexivity.
    - apply (cached_store_with_kernel f s). }
  split.
  { exists knl1. split; [exact Hc1|]. split.
    - unfold s2. by rewrite (Hreuse _ _ _ Harg2 Hc1).
    - by rewrite (Hreuse _ _ _ Harg2 Hc1). }
  split; [exact Hs2|].
  by rewrite Hs2.
Qed.

(** C5. Scalar fast path: an elementwise unary function called with one
    argument that is a number or a zero-dimensional ndarray returns what
    the numpy function named by its identifier returns on that argument;
    the store is left as it was, so no kernel is built or cached, and the
    outcome is the same in every store, so no cached kernel is consulted. *)
Theorem scalar_fast_path (self : loc) (id : string) (queue : Queue)
    (arg : Value) s :
  scalar_argument arg →
  call (CElementwiseUnaryFunction self id) queue [arg] [] s
  = (match numpy id with
     | Some func => func arg
     | None => Raise (AttributeError id)
     end, s)
  ∧ (∀ func, numpy id = Some func →
       call (CElementwiseUnaryFunction self id) queue [arg] [] s
       = (func arg, s))
  ∧ (∀ s', fst (call (CElementwiseUnaryFunction self id) queue [arg] [] s')
           = fst (call (CElementwiseUnaryFunction self id) queue [arg] [] s)).
Proof.
  intros Harg.
  assert (Heq : ∀ s0,
            call (CElementwiseUnaryFunction self id) queue [arg] [] s0
            = (match numpy id with
               | Some func => func arg
               | None => Raise (AttributeError id)
               end, s0)).
  { intros s0. cbn [call].
    apply (scalar_path (CElementwiseUnaryFunction self id) queue arg s0 Harg). }
  split; [apply Heq|]. split.
  - intros func Hfunc. by rewrite Heq, Hfunc.
  - intros s'. by rewrite !Heq.
Qed.

(** C10. The remap of [fabs] to [abs] is not applied on the scalar path:
    the function of identifier ["fabs"] called on a number or a
    zero-dimensional ndarray applies numpy's [fabs] and leaves the store as
    it was; called on an array argument without a cached kernel, it builds
    and caches the kernel of the operation [abs] under
    ["map_call_knl_abs"]. *)
Theorem fabs_remapped_on_array_path_only (self : loc) (queue : Queue) s :
  (∀ arg : Value,
     scalar_argument arg →
     call (CElementwiseUnaryFunction self "fabs") queue [arg] [] s
     = (match numpy "fabs" with
        | Some func => func arg
        | None => Raise (AttributeError "fabs")
        end, s))
  ∧ (∀ arg : Value,
       array_argument arg →
       cached s self "map_call_knl_abs" = None →
       call (CElementwiseUnaryFunction self "fabs") queue [arg] [] s
       = in_world (run_kernel (elementwise_kernel "abs") queue arg)
                  (store_with_kernel (CElementwiseUnaryFunction self "fabs") s)
       ∧ cached (snd (call (CElementwiseUnaryFunction self "fabs")
                           queue [arg] [] s))
                self "map_call_knl_abs"
         = Some (elementwise_kernel "abs")).
Proof.
  split.
  - intros arg Harg. cbn [call].
    apply (scalar_path (CElementwiseUnaryFunction self "fabs") queue arg s Harg).
  - intros arg Harg Hc. cbn [call].
    rewrite (array_path_uncached (CElementwiseUnaryFunction self "fabs")
               queue arg s Harg Hc).
    split; [done|].
    rewrite in_world_store. cbn [snd].
    apply (cached_store_with_kernel (CElementwiseUnaryFunction self "fabs") s).
Qed.

End Properties.

(** * Further properties of the registry *)

Section RegistryProperties.

Context {RT : Runtime} {IM : Implementations}.

Implicit Types (R : FunctionRegistry) (f g : Function) (s : Store).
Implicit Types (m : gmap string Function) (k : string).

Lemma mapping_with_dicts s (d : gmap loc (gmap string Function)) R :
  mapping (with_dicts d s) R = d !! id_to_function R.
Proof. done. Qed.

(** The mapping of the registry that a successful [register] returns, and
    of every registry that was there before. *)
Lemma register_mappings R f s m :
  mapping s R = Some m →
  m !! identifier f = None →
  ∃ R2 s2,
    register R f s = (Return R2, s2)
    ∧ mapping s R2 = None
    ∧ mapping s2 R2 = Some (<[identifier f := f]> m)
    ∧ (∀ R', is_Some (mapping s R') → mapping s2 R' = mapping s R')
    ∧ memoize_in_dicts s2 = memoize_in_dicts s
    ∧ next_object s2 = next_object s
    ∧ make_kernel_calls s2 = make_kernel_calls s
    ∧ world s2 = world s.
Proof.
  intros Hm Hf. eexists _, _.
  split; [by apply register_fresh|].
  split; [apply fresh_dict_unallocated|].
  split; [unfold mapping; cbn; apply lookup_insert_eq|].
  split; [|done].
  intros R' [m' Hm']. rewrite mapping_with_dicts.
  rewrite lookup_insert_ne; [done|].
  by apply (fresh_dict_ne _ _ m').
Qed.

(** X1. Membership agrees with lookup on every registry, whatever its dict
    holds: [id in R] neither raises nor changes the store, it is true
    exactly when [R[id]] returns a function, and false exactly when [R[id]]
    raises [FunctionNotFound]. *)
Theorem contains_agrees_with_getitem R s m k :
  mapping s R = Some m →
  ∃ b : bool,
    contains R k s = (Return b, s)
    ∧ (b = true ↔ ∃ f, getitem R k s = (Return f, s))
    ∧ (b = false ↔ getitem R k s = (Raise (unknown_function k), s)).
Proof.
  intros Hm. exists (bool_decide (is_Some (m !! k))).
  split; [by apply contains_eq|].
  destruct (m !! k) as [f|] eqn:Hk.
  - rewrite (getitem_bound _ _ _ _ _ Hm Hk).
    rewrite bool_decide_eq_true_2 by eauto.
    split; [split; eauto|]. split; [done|]. intros [=].
  - rewrite (getitem_unbound _ _ _ _ Hm Hk).
    rewrite bool_decide_eq_false_2 by (intros [? ?]; done).
    split; [|done]. split; [done|]. intros [? [=]].
Qed.

(** X2. A successful registration adds one binding and nothing else: the
    mapping of the new registry is that of the receiver with the identifier
    bound to the function, it has one identifier more, and membership of
    every other identifier is as in the receiver. *)
Theorem register_adds_exactly_one R f s m :
  mapping s R = Some m →
  m !! identifier f = None →
  ∃ R2 s2,
    register R f s = (Return R2, s2)
    ∧ mapping s2 R2 = Some (<[identifier f := f]> m)
    ∧ size (<[identifier f := f]> m) = S (size m)
    ∧ (∀ k, k ≠ identifier f →
         fst (contains R2 k s2) = fst (contains R k s)
         ∧ fst (getitem R2 k s2) = fst (getitem R k s)).
Proof.
  intros Hm Hf.
  destruct (register_mappings R f s m Hm Hf)
    as (R2 & s2 & Hreg & _ & Hm2 & _).
  exists R2, s2. split; [done|]. split; [done|].
  split; [by apply map_size_insert_None|].
  intros k Hk. split.
  - rewrite (contains_eq _ _ _ k Hm2), (contains_eq _ _ _ k Hm).
    by rewrite lookup_insert_ne.
  - destruct (m !! k) as [g|] eqn:Hmk.
    + rewrite (getitem_bound R s m k g Hm Hmk).
      by rewrite (getitem_bound R2 s2 _ k g Hm2)
        by (by rewrite lookup_insert_ne).
    + rewrite (getitem_unbound R s m k Hm Hmk).
      by rewrite (getitem_unbound R2 s2 _ k Hm2)
        by (by rewrite lookup_insert_ne).
Qed.

(** X3. Registrations commute: two functions of different identifiers, both
    new to a registry, can be registered in either order, and the two
    resulting registries have the same mapping. *)
Theorem register_commutes R f g s m :
  mapping s R = Some m →
  m !! identifier f = None →
  m !! identifier g = None →
  identifier f ≠ identifier g →
  ∃ Rfg sfg Rgf sgf,
    (R1 ← register R f; register R1 g) s = (Return Rfg, sfg)
    ∧ (R1 ← register R g; register R1 f) s = (Return Rgf, sgf)
    ∧ mapping sfg Rfg = Some (<[identifier g := g]> (<[identifier f := f]> m))
    ∧ mapping sgf Rgf = mapping sfg Rfg.
Proof.
  intros Hm Hf Hg Hne.
  destruct (register_mappings R f s m Hm Hf)
    as (R1 & s1 & Hreg1 & _ & Hm1 & _).
  destruct (register_mappings R1 g s1 _ Hm1) as (R2 & s2 & Hreg2 & _ & Hm2 & _).
  { by rewrite lookup_insert_ne. }
  destruct (register_mappings R g s m Hm Hg)
    as (R1' & s1' & Hreg1' & _ & Hm1' & _).
  destruct (register_mappings R1' f s1' _ Hm1')
    as (R2' & s2' & Hreg2' & _ & Hm2' & _).
  { by rewrite lookup_insert_ne. }
  exists R2, s2, R2', s2'.
  unfold mbind, Py_bind. rewrite Hreg1, Hreg1'.
  split; [done|]. split; [done|]. split; [done|].
  rewrite Hm2, Hm2'. f_equal. by apply insert_insert_ne.
Qed.

(** X4. Two extensions of one registry do not see each other: after
    [R1 = R.register(f)] and [R2 = R.register(g)], whether or not [f] and
    [g] have the same identifier, [R1] holds the bindings of [R] and [f],
    [R2] those of [R] and [g], and [R] its own. *)
Theorem register_siblings_independent R f g s m :
  mapping s R = Some m →
  m !! identifier f = None →
  m !! identifier g = None →
  ∃ R1 s1 R2 s2,
    register R f s = (Return R1, s1)
    ∧ register R g s1 = (Return R2, s2)
    ∧ mapping s2 R = Some m
    ∧ mapping s2 R1 = Some (<[identifier f := f]> m)
    ∧ mapping s2 R2 = Some (<[identifier g := g]> m)
    ∧ getitem R1 (identifier f) s2 = (Return f, s2)
    ∧ getitem R2 (identifier g) s2 = (Return g, s2)
    ∧ (identifier f ≠ identifier g →
         contains R1 (identifier g) s2 = (Return false, s2)
         ∧ contains R2 (identifier f) s2 = (Return false, s2)).
Proof.
  intros Hm Hf Hg.
  destruct (register_mappings R f s m Hm Hf)
    as (R1 & s1 & Hreg1 & _ & Hm1 & Hold1 & _).
  assert (HmR1 : mapping s1 R = Some m).
  { rewrite Hold1; [done|by rewrite Hm]. }
  destruct (register_mappings R g s1 m HmR1 Hg)
    as (R2 & s2 & Hreg2 & _ & Hm2 & Hold2 & _).
  assert (HmR2 : mapping s2 R = Some m).
  { rewrite Hold2; [done|by rewrite HmR1]. }
  assert (Hm12 : mapping s2 R1 = Some (<[identifier f := f]> m)).
  { rewrite Hold2; [done|by rewrite Hm1]. }
  exists R1, s1, R2, s2.
  split; [done|]. split; [done|]. split; [done|]. split; [done|].
  split; [done|].
  split; [eapply getitem_bound; [done|apply lookup_insert_eq]|].
  split; [eapply getitem_bound; [done|apply lookup_insert_eq]|].
  intros Hne. split.
  - rewrite (contains_eq _ _ _ _ Hm12), lookup_insert_ne by done.
    rewrite Hg. by rewrite bool_decide_eq_false_2 by (intros [? ?]; done).
  - rewrite (contains_eq _ _ _ _ Hm2), lookup_insert_ne by done.
    rewrite Hf. by rewrite bool_decide_eq_false_2 by (intros [? ?]; done).
Qed.

(** X5. [register_external_function] on an identifier that is already
    bound raises the ValueError of [register]; the function object has been
    constructed by then, and that is all that happened: every dict, every
    kernel cache and the world are as before. *)
Theorem register_external_function_duplicate R s m g (id : string)
    (implementation : Callable) (dd : DOFDesc) :
  mapping s R = Some m →
  m !! id = Some g →
  ∃ s',
    register_external_function R id implementation dd s
    = (Raise (already_registered id), s')
    ∧ dicts s' = dicts s
    ∧ next_object s' = S (next_object s)
    ∧ memoize_in_dicts s' = memoize_in_dicts s
    ∧ make_kernel_calls s' = make_kernel_calls s
    ∧ world s' = world s.
Proof.
  intros Hm Hid. exists (snd (new_object s)). split; [|done].
  unfold register_external_function, new_FixedDOFDescExternalFunction.
  unfold mbind, Py_bind, mret, Py_ret. cbn.
  apply (register_bound R
           (FixedDOFDescExternalFunction (next_object s) id implementation dd)
           _ m g); done.
Qed.

(** X6. [FunctionRegistry()] makes a registry on a dict of its own, which
    is empty: every dict of the store is as it was, no identifier is in the
    new registry, and every lookup in it raises [FunctionNotFound]. *)
Theorem new_registry_is_empty s :
  ∃ R s',
    FunctionRegistry_init None s = (Return R, s')
    ∧ mapping s R = None
    ∧ mapping s' R = Some ∅
    ∧ (∀ R', is_Some (mapping s R') → mapping s' R' = mapping s R')
    ∧ ∀ k, contains R k s' = (Return false, s')
           ∧ getitem R k s' = (Raise (unknown_function k), s').
Proof.
  eexists _, _. split; [reflexivity|].
  split; [apply fresh_dict_unallocated|].
  assert (Hm : mapping (with_dicts (<[fresh (dom (dicts s)) := ∅]> (dicts s)) s)
                 (mkFunctionRegistry (fresh (dom (dicts s)))) = Some ∅).
  { unfold mapping. cbn. apply lookup_insert_eq. }
  split; [exact Hm|]. split.
  - intros R' [m' Hm']. rewrite mapping_with_dicts.
    rewrite lookup_insert_ne; [done|]. by apply (fresh_dict_ne _ _ m').
  - intros k. split.
    + by rewrite (contains_eq _ _ _ k Hm), lookup_empty.
    + apply (getitem_unbound _ _ _ k Hm), lookup_empty.
Qed.

Lemma lookup_total_at_keyed R s m k :
  mapping s R = Some m → keyed_by_identifier m → lookup_total_at R s k.
Proof.
  intros Hm Hkeys. unfold lookup_total_at.
  rewrite (contains_eq _ _ _ k Hm).
  destruct (m !! k) as [f|] eqn:Hf.
  - left. split; [by rewrite bool_decide_eq_true_2 by eauto|].
    exists f. split; [by eapply getitem_bound|by apply Hkeys].
  - right. split.
    + by rewrite bool_decide_eq_false_2 by (intros [? ?]; done).
    + by eapply getitem_unbound.
Qed.

(** X7. Registration keeps keys and identifiers together: if every key of
    the receiver's dict is the identifier of the function bound to it, the
    same holds of the registry that [register] returns, and lookup in that
    registry returns, for every identifier it contains, a function of that
    identifier. *)
Theorem register_keeps_keys R f s m :
  mapping s R = Some m →
  keyed_by_identifier m →
  m !! identifier f = None →
  ∃ R2 s2 m2,
    register R f s = (Return R2, s2)
    ∧ mapping s2 R2 = Some m2
    ∧ keyed_by_identifier m2
    ∧ ∀ k, lookup_total_at R2 s2 k.
Proof.
  intros Hm Hkeys Hf.
  destruct (register_mappings R f s m Hm Hf)
    as (R2 & s2 & Hreg & _ & Hm2 & _).
  assert (Hkeys2 : keyed_by_identifier (<[identifier f := f]> m))
    by by apply keyed_by_identifier_insert.
  exists R2, s2, (<[identifier f := f]> m).
  split; [done|]. split; [done|]. split; [done|].
  intros k. by apply (lookup_total_at_keyed R2 s2 _ k Hm2).
Qed.

(** X8. A miss is a KeyError to its handlers: where the identifier is not
    bound, [try: R[id] except KeyError: ...] runs its handler, in the store
    as it was; a clause for a class that FunctionNotFound does not inherit
    from lets the exception through. *)
Theorem lookup_miss_is_a_KeyError R s m k (handler : Py Function)
    (other : Exn → bool) :
  mapping s R = Some m →
  m !! k = None →
  try_except (getitem R k) isinstance_KeyError handler s = handler s
  ∧ (other (unknown_function k) = false →
       try_except (getitem R k) other handler s
       = (Raise (unknown_function k), s)).
Proof.
  intros Hm Hk. unfold try_except.
  rewrite (getitem_unbound _ _ _ _ Hm Hk). split; [done|].
  unfold unknown_function. by intros ->.
Qed.

(** *** Registering a list of functions *)

Lemma lookup_foldl_insert_notin (fs : list Function) m k :
  k ∉ identifier <$> fs →
  foldl (fun acc f => <[identifier f := f]> acc) m fs !! k = m !! k.
Proof.
  revert m. induction fs as [|a fs IH]; intros m Hk; [done|].
  cbn in *. apply not_elem_of_cons in Hk as [Hka Hk].
  rewrite IH by done. by rewrite lookup_insert_ne.
Qed.

Lemma lookup_foldl_insert_in (fs : list Function) m f :
  NoDup (identifier <$> fs) →
  f ∈ fs →
  foldl (fun acc f => <[identifier f := f]> acc) m fs !! identifier f
  = Some f.
Proof.
  revert m. induction fs as [|a fs IH]; intros m Hnd Hin.
  - by apply elem_of_nil in Hin.
  - cbn in *. apply NoDup_cons in Hnd as [Ha Hnd].
    apply elem_of_cons in Hin as [->|Hin].
    + rewrite lookup_foldl_insert_notin by done. apply lookup_insert_eq.
    + by apply IH.
Qed.

Lemma register_all_mappings (fs : list Function) R s m :
  mapping s R = Some m →
  NoDup (identifier <$> fs) →
  (∀ f, f ∈ fs → m !! identifier f = None) →
  ∃ R' s',
    register_all R fs s = (Return R', s')
    ∧ mapping s' R'
      = Some (foldl (fun acc f => <[identifier f := f]> acc) m fs)
    ∧ ∀ R0, is_Some (mapping s R0) → mapping s' R0 = mapping s R0.
Proof.
  revert R s m.
  induction fs as [|a fs IH]; intros R s m Hm Hnd Hnew.
  - exists R, s. by repeat split.
  - cbn in Hnd. apply NoDup_cons in Hnd as [Ha Hnd].
    assert (Hma : m !! identifier a = None)
      by (apply Hnew; apply elem_of_cons; by left).
    destruct (register_mappings R a s m Hm Hma)
      as (R1 & s1 & Hreg & _ & Hm1 & Hold & _).
    destruct (IH R1 s1 _ Hm1 Hnd) as (R' & s' & Hregs & Hm' & Hold').
    { intros f Hf. rewrite lookup_insert_ne.
      - apply Hnew, elem_of_cons. by right.
      - intros Heq. apply Ha. rewrite Heq.
        by apply list_elem_of_fmap_2. }
    exists R', s'. cbn [register_all]. unfold mbind, Py_bind.
    rewrite Hreg. split; [exact Hregs|]. split; [exact Hm'|].
    intros R0 HR0. rewrite Hold'; [by apply Hold|].
    by rewrite Hold.
Qed.

Lemma register_all_app (l1 l2 : list Function) R s :
  register_all R (l1 ++ l2) s
  = (R1 ← register_all R l1; register_all R1 l2) s.
Proof.
  revert R s. induction l1 as [|a l1 IH]; intros R s; [done|].
  cbn [app register_all]. unfold mbind, Py_bind in *.
  destruct (register R a s) as [[R1| |] s1]; [apply IH|done|done].
Qed.

(** X9. Registering a list of functions whose identifiers differ from one
    another and are all new to the registry succeeds: the resulting registry
    holds the receiver's bindings and one for each function of the list,
    which lookup returns; the receiver holds what it held. *)
Theorem register_all_succeeds (fs : list Function) R s m :
  mapping s R = Some m →
  NoDup (identifier <$> fs) →
  (∀ f, f ∈ fs → m !! identifier f = None) →
  ∃ R' s',
    register_all R fs s = (Return R', s')
    ∧ mapping s' R'
      = Some (foldl (fun acc f => <[identifier f := f]> acc) m fs)
    ∧ mapping s' R = Some m
    ∧ (∀ f, f ∈ fs → getitem R' (identifier f) s' = (Return f, s'))
    ∧ (∀ k g, m !! k = Some g → getitem R' k s' = (Return g, s')).
Proof.
  intros Hm Hnd Hnew.
  destruct (register_all_mappings fs R s m Hm Hnd Hnew)
    as (R' & s' & Hreg & Hm' & Hold).
  exists R', s'. split; [done|]. split; [done|].
  split; [rewrite Hold; [done|by rewrite Hm]|].
  split.
  - intros f Hf. eapply getitem_bound; [exact Hm'|].
    by apply lookup_foldl_insert_in.
  - intros k g Hk. eapply getitem_bound; [exact Hm'|].
    rewrite lookup_foldl_insert_notin; [done|].
    intros (f & -> & Hf)%list_elem_of_fmap.
    rewrite (Hnew f Hf) in Hk. discriminate.
Qed.

(** X10. Registering a list stops at the first function whose identifier
    is taken, by the receiver or by a function earlier in the list: the
    ValueError names that identifier, the functions after it are not
    looked at, and the receiver holds what it held. *)
Theorem register_all_stops_at_duplicate (pre post : list Function) f R s m :
  mapping s R = Some m →
  NoDup (identifier <$> pre) →
  (∀ g, g ∈ pre → m !! identifier g = None) →
  is_Some (m !! identifier f) ∨ identifier f ∈ identifier <$> pre →
  ∃ s',
    register_all R (pre ++ f :: post) s
    = (Raise (already_registered (identifier f)), s')
    ∧ mapping s' R = Some m.
Proof.
  intros Hm Hnd Hnew Htaken.
  destruct (register_all_mappings pre R s m Hm Hnd Hnew)
    as (R1 & s1 & Hreg & Hm1 & Hold).
  assert (Hbound : is_Some (foldl (fun acc f => <[identifier f := f]> acc)
                              m pre !! identifier f)).
  { destruct (decide (identifier f ∈ identifier <$> pre)) as [Hin|Hnotin].
    - apply list_elem_of_fmap in Hin as (g & Heq & Hg).
      rewrite Heq. rewrite lookup_foldl_insert_in by done. by eexists.
    - rewrite lookup_foldl_insert_notin by done.
      by destruct Htaken. }
  destruct Hbound as [g Hg].
  exists s1. split.
  - rewrite register_all_app. unfold mbind at 1, Py_bind at 1. rewrite Hreg.
    cbn [register_all]. unfold mbind, Py_bind.
    by rewrite (register_bound R1 f s1 _ g Hm1 Hg).
  - rewrite Hold; [done|by rewrite Hm].
Qed.

(** *** The base registry *)

Lemma base_function_registry_mapping (w : World) :
  ∃ s0,
    base_function_registry w = (Return (mkFunctionRegistry 7), s0)
    ∧ mapping s0 (mkFunctionRegistry 7) = Some base_mapping
    ∧ next_object s0 = 7
    ∧ memoize_in_dicts s0 = ∅
    ∧ make_kernel_calls s0 = []
    ∧ world s0 = w.
Proof.
  eexists. split; [vm_compute; reflexivity|].
  split; [vm_compute; reflexivity|]. done.
Qed.

Lemma base_mapping_dom :
  dom base_mapping
  = list_to_set ["sqrt"; "exp"; "fabs"; "sin"; "cos"; "bessel_j"; "bessel_y"].
Proof.
  unfold base_mapping. cbn [foldl identifier list_to_set].
  rewrite !dom_insert_L, dom_empty_L. set_solver.
Qed.

Lemma base_mapping_unbound k :
  k ∉ ["sqrt"; "exp"; "fabs"; "sin"; "cos"; "bessel_j"; "bessel_y"] →
  base_mapping !! k = None.
Proof.
  intros Hk. apply not_elem_of_dom. rewrite base_mapping_dom.
  by rewrite elem_of_list_to_set.
Qed.

(** X11. The base registry: [_make_bfr] returns without raising, in every
    world, a registry that contains exactly [sqrt], [exp], [fabs], [sin],
    [cos], [bessel_j] and [bessel_y]; the first five are bound to
    elementwise unary functions and the last two to Bessel functions, each
    carrying its key as identifier and supporting code generation; no
    kernel has been built or cached, and the world is untouched. *)
Theorem base_registry_contents (w : World) :
  ∃ bfr s0,
    base_function_registry w = (Return bfr, s0)
    ∧ (∀ k, contains bfr k s0
            = (Return (bool_decide
                 (k ∈ ["sqrt"; "exp"; "fabs"; "sin"; "cos";
                       "bessel_j"; "bessel_y"])), s0))
    ∧ (∀ k, k ∈ ["sqrt"; "exp"; "fabs"; "sin"; "cos"] →
         ∃ self, getitem bfr k s0
                 = (Return (CElementwiseUnaryFunction self k), s0))
    ∧ (∀ k, k ∈ ["bessel_j"; "bessel_y"] →
         ∃ self, getitem bfr k s0 = (Return (CBesselFunction self k), s0))
    ∧ (∀ k f, getitem bfr k s0 = (Return f, s0) →
         identifier f = k ∧ supports_codegen f = Some true)
    ∧ memoize_in_dicts s0 = ∅
    ∧ make_kernel_calls s0 = []
    ∧ world s0 = w.
Proof.
  destruct (base_function_registry_mapping w)
    as (s0 & Hbfr & Hm & _ & Hmemo & Hlog & Hw).
  exists (mkFunctionRegistry 7), s0.
  split; [exact Hbfr|]. clear Hbfr. split.
  { intros k. rewrite (contains_eq _ _ _ k Hm). f_equal. f_equal.
    apply bool_decide_ext.
    rewrite <- elem_of_dom, base_mapping_dom. apply elem_of_list_to_set. }
  split.
  { intros k Hk.
    repeat (apply elem_of_cons in Hk as [->|Hk]);
      [eexists; eapply getitem_bound; [exact Hm|reflexivity]..|].
    inversion Hk. }
  split.
  { intros k Hk.
    repeat (apply elem_of_cons in Hk as [->|Hk]);
      [eexists; eapply getitem_bound; [exact Hm|reflexivity]..|].
    inversion Hk. }
  split; [|by repeat split].
  intros k f Hget.
  destruct (base_mapping !! k) as [g|] eqn:Hk.
  - rewrite (getitem_bound _ _ _ _ _ Hm Hk) in Hget.
    injection Hget as <-.
    unfold base_mapping in Hk. cbn [foldl identifier] in Hk.
    repeat (apply lookup_insert_Some in Hk as [[<- <-]|[_ Hk]]; [done|]).
    by rewrite lookup_empty in Hk.
  - by rewrite (getitem_unbound _ _ _ _ Hm Hk) in Hget.
Qed.

(** X12. Extending the base registry: for an identifier other than its
    seven, [register_external_function] on the base registry returns a
    registry in which the identifier is bound to a function that does not
    support code generation, whose result descriptor is the given one for
    every argument list, and whose call, with arguments that bind, is the
    call of the given callable;
    the seven lookups give what they gave, and the base registry still
    raises [FunctionNotFound] for the identifier. *)
Theorem base_registry_extension (w : World) (id : string)
    (implementation : Callable) (dd : DOFDesc) :
  id ∉ ["sqrt"; "exp"; "fabs"; "sin"; "cos"; "bessel_j"; "bessel_y"] →
  ∃ bfr s0 R2 s2 f,
    base_function_registry w = (Return bfr, s0)
    ∧ register_external_function bfr id implementation dd s0
      = (Return R2, s2)
    ∧ contains R2 id s2 = (Return true, s2)
    ∧ getitem R2 id s2 = (Return f, s2)
    ∧ identifier f = id
    ∧ supports_codegen f = Some false
    ∧ (∀ arg_dds, get_result_dofdesc f arg_dds = Return dd)
    ∧ (∀ queue args kwargs s,
         binds_keywords kwargs = true →
         call f queue args kwargs s
         = py_call implementation queue args kwargs s)
    ∧ (∀ k, k ≠ id → fst (getitem R2 k s2) = fst (getitem bfr k s0))
    ∧ contains bfr id s2 = (Return false, s2)
    ∧ getitem bfr id s2 = (Raise (unknown_function id), s2).
Proof.
  intros Hid.
  destruct (base_function_registry_mapping w) as (s0 & Hbfr & Hm & _).
  pose proof (base_mapping_unbound id Hid) as Hnone.
  set (f := FixedDOFDescExternalFunction (next_object s0) id implementation dd).
  assert (Hm1 : mapping (snd (new_object s0)) (mkFunctionRegistry 7)
                = Some base_mapping) by exact Hm.
  destruct (register_mappings (mkFunctionRegistry 7) f _ base_mapping Hm1 Hnone)
    as (R2 & s2 & Hreg & _ & Hm2 & Hold & _).
  assert (Hm' : mapping s2 (mkFunctionRegistry 7) = Some base_mapping).
  { rewrite Hold; [done|by rewrite Hm1]. }
  exists (mkFunctionRegistry 7), s0, R2, s2, f.
  split; [exact Hbfr|]. clear Hbfr. split; [exact Hreg|].
  split.
  { rewrite (contains_eq _ _ _ _ Hm2). cbn [identifier f].
    rewrite lookup_insert_eq. by rewrite bool_decide_eq_true_2. }
  split; [eapply getitem_bound; [exact Hm2|apply lookup_insert_eq]|].
  split; [done|]. split; [done|]. split; [done|].
  split; [intros queue args kwargs s Hbind; cbn [call f]; by rewrite Hbind|].
  split.
  { intros k Hk. destruct (base_mapping !! k) as [g|] eqn:Hmk.
    - rewrite (getitem_bound _ s0 _ k g Hm Hmk).
      by rewrite (getitem_bound R2 s2 _ k g Hm2)
        by (by rewrite lookup_insert_ne).
    - rewrite (getitem_unbound _ s0 _ k Hm Hmk).
      by rewrite (getitem_unbound R2 s2 _ k Hm2)
        by (by rewrite lookup_insert_ne). }
  split.
  - rewrite (contains_eq _ _ _ _ Hm'), Hnone.
    by rewrite bool_decide_eq_false_2 by (intros [? ?]; done).
  - by apply (getitem_unbound _ _ _ _ Hm').
Qed.

End RegistryProperties.

(** * Further properties of calls and of the kernel cache *)

Section CallProperties.

Context {RT : Runtime} {IM : Implementations}.

Implicit Types (R : FunctionRegistry) (f g : Function) (s : Store).

Lemma scalar_or_array (arg : Value) : scalar_argument arg ∨ array_argument arg.
Proof.
  unfold scalar_argument, array_argument.
  destruct (isinstance_Number arg); [by left; left|].
  destruct (ndarray_shape arg) as [[|n shape]|]; [by left; right|..];
    by right.
Qed.

(** The name under which the kernel of [f] is cached. *)
Lemma elementwise_call_store f (queue : Queue) (arg : Value) s :
  let key := "map_call_knl_" +:+ operation_name (identifier f) in
  let s' := snd (CElementwiseUnaryFunction_call f queue arg s) in
  s' = s
  ∨ (∃ w, s' = with_world w s ∧ is_Some (cached s (object_id f) key))
  ∨ (∃ w, s' = with_world w (store_with_kernel f s)
          ∧ cached s (object_id f) key = None).
Proof.
  intros key s'. unfold s'.
  destruct (scalar_or_array arg) as [Harg|Harg].
  - left. by rewrite (scalar_path f queue arg s Harg).
  - destruct (cached s (object_id f) key) as [knl0|] eqn:Hc.
    + right; left.
      rewrite (array_path_cached f queue arg s knl0 Harg Hc).
      rewrite in_world_store. eauto.
    + right; right.
      rewrite (array_path_uncached f queue arg s Harg Hc).
      rewrite in_world_store. eauto.
Qed.

(** The store after a call of a function of the module's own: as it was,
    or with another world, or with another world and the kernel of [f]
    built and cached where it was not. *)
Lemma call_store f (queue : Queue) (args : list Value)
    (kwargs : list (string * Value)) s :
  own_call f = true →
  let key := "map_call_knl_" +:+ operation_name (identifier f) in
  let s' := snd (call f queue args kwargs s) in
  s' = s
  ∨ (∃ w, s' = with_world w s)
  ∨ (∃ w self id, f = CElementwiseUnaryFunction self id
          ∧ s' = with_world w (store_with_kernel f s)
          ∧ cached s (object_id f) key = None).
Proof.
  intros Hown key s'. unfold s'. clear s'.
  assert (Helt : ∀ self id arg,
            f = CElementwiseUnaryFunction self id →
            let s' := snd (CElementwiseUnaryFunction_call f queue arg s) in
            s' = s
            ∨ (∃ w, s' = with_world w s)
            ∨ (∃ w self id, f = CElementwiseUnaryFunction self id
                 ∧ s' = with_world w (store_with_kernel f s)
                 ∧ cached s (object_id f) key = None)).
  { intros self id arg Hf.
    destruct (elementwise_call_store f queue arg s)
      as [H|[(w & H & _)|(w & H & Hc)]]; [by left|right; left; eauto|].
    right; right. exists w, self, id. done. }
  destruct f as [self id|self id|self id|self id impl dd].
  - cbn [call]. destruct (binds_keywords kwargs); by left.
  - destruct args as [|a [|a' args]], kwargs as [|[name v] [|kw kwargs]];
      cbn [call]; try (by left); try (by eapply Helt).
    destruct (String.eqb name "arg"); [by eapply Helt|by left].
  - cbn [call]. destruct (binds_keywords kwargs); by left.
  - discriminate Hown.
Qed.

Lemma call_array_cached (self : loc) (id : string) (queue : Queue)
    (arg : Value) s knl0 :
  array_argument arg →
  cached s self ("map_call_knl_" +:+ operation_name id) = Some knl0 →
  call (CElementwiseUnaryFunction self id) queue [arg] [] s
  = in_world (run_kernel knl0 queue arg) s.
Proof.
  intros Harg Hc.
  exact (array_path_cached (CElementwiseUnaryFunction self id) queue arg s
           knl0 Harg Hc).
Qed.

Lemma call_array_uncached (self : loc) (id : string) (queue : Queue)
    (arg : Value) s :
  array_argument arg →
  cached s self ("map_call_knl_" +:+ operation_name id) = None →
  call (CElementwiseUnaryFunction self id) queue [arg] [] s
  = in_world (run_kernel (elementwise_kernel (operation_name id)) queue arg)
             (store_with_kernel (CElementwiseUnaryFunction self id) s).
Proof.
  intros Harg Hc.
  exact (array_path_uncached (CElementwiseUnaryFunction self id) queue arg s
           Harg Hc).
Qed.

Lemma cached_with_world w s o name :
  cached (with_world w s) o name = cached s o name.
Proof. done. Qed.

Lemma cached_store_with_kernel_other f s o name knl0 :
  cached s (object_id f)
         ("map_call_knl_" +:+ operation_name (identifier f)) = None →
  cached s o name = Some knl0 →
  cached (store_with_kernel f s) o name = Some knl0.
Proof.
  unfold cached, store_with_kernel. cbn [memoize_in_dicts].
  intros Hnone Hsome.
  destruct (decide (o = object_id f)) as [->|Ho].
  - rewrite lookup_insert_eq. cbn.
    destruct (memoize_in_dicts s !! object_id f) as [c|] eqn:Hmemo;
      cbn in *; [|done].
    rewrite lookup_insert_ne; [done|]. intros <-. congruence.
  - by rewrite lookup_insert_ne.
Qed.

(** X13. The module's own calls touch no registry: whichever function
    other than a fixed-descriptor external one is called, with whatever
    arguments and whatever the outcome, every dict of the store is as it
    was, so every registry contains and returns what it did, and no object
    is constructed. *)
Theorem call_leaves_registries f (queue : Queue) (args : list Value)
    (kwargs : list (string * Value)) s :
  own_call f = true →
  let s' := snd (call f queue args kwargs s) in
  dicts s' = dicts s
  ∧ next_object s' = next_object s
  ∧ ∀ R k, mapping s' R = mapping s R
           ∧ fst (contains R k s') = fst (contains R k s)
           ∧ fst (getitem R k s') = fst (getitem R k s).
Proof.
  intros Hown s'.
  assert (Hd : dicts s' = dicts s ∧ next_object s' = next_object s).
  { destruct (call_store f queue args kwargs s Hown)
      as [H|[(w & H)|(w & self & id & _ & H & _)]];
      fold s' in H; by rewrite H. }
  destruct Hd as [Hd Hn]. split; [done|]. split; [done|].
  intros R k.
  unfold mapping, contains, dict_contains, getitem, try_except, dict_getitem.
  rewrite Hd. split; [done|].
  destruct (dicts s !! id_to_function R) as [m|]; [|done].
  split; [done|]. by destruct (m !! k).
Qed.

(** X14. One of the module's own calls builds at most one kernel and
    forgets none: after a call of a function other than a fixed-descriptor
    external one, the list of built kernels is the one before, or the one
    before with the kernel of the operation of [f] added, which happens only
    where [f] is an elementwise function that had no kernel cached; every
    kernel cached on any object under any name is still cached there; and
    the caches of objects other than [f] are as they were. *)
Theorem call_builds_at_most_one_kernel f (queue : Queue) (args : list Value)
    (kwargs : list (string * Value)) s :
  own_call f = true →
  let key := "map_call_knl_" +:+ operation_name (identifier f) in
  let s' := snd (call f queue args kwargs s) in
  (make_kernel_calls s' = make_kernel_calls s
   ∧ memoize_in_dicts s' = memoize_in_dicts s
   ∨ (∃ built self id,
        f = CElementwiseUnaryFunction self id
        ∧ cached s self key = None
        ∧ make_kernel_calls s' = make_kernel_calls s ++ [built]
        ∧ lp_split_iname built "i" 128 "g.0" "l.0"
          = elementwise_kernel (operation_name id)
        ∧ cached s' self key = Some (elementwise_kernel (operation_name id))))
  ∧ (∀ o name knl0, cached s o name = Some knl0 → cached s' o name = Some knl0)
  ∧ (∀ o, o ≠ object_id f →
       memoize_in_dicts s' !! o = memoize_in_dicts s !! o).
Proof.
  intros Hown key s'.
  destruct (call_store f queue args kwargs s Hown)
    as [H|[(w & H)|(w & self & id & Hf & H & Hc)]]; fold s' in H; rewrite H.
  - split; [by left|]. split; [done|done].
  - split; [by left|]. split; [done|done].
  - subst f. cbn [object_id identifier] in Hc. split; [|split].
    + right. eexists _, self, id. split; [done|]. split; [exact Hc|].
      split; [reflexivity|]. split; [reflexivity|].
      rewrite cached_with_world.
      apply (cached_store_with_kernel (CElementwiseUnaryFunction self id) s).
    + intros o name knl0 Hsome. rewrite cached_with_world.
      by apply cached_store_with_kernel_other.
    + intros o Ho. cbn. by rewrite lookup_insert_ne.
Qed.

(** X15. However often and on whatever arguments, scalars or arrays, one
    elementwise function is called, at most one kernel is built, and none
    where its kernel was cached before. *)
Theorem call_each_builds_at_most_one_kernel (self : loc) (id : string)
    (queue : Queue) (args : list Value) s :
  (length (make_kernel_calls
             (call_each (CElementwiseUnaryFunction self id) queue args s))
   ≤ S (length (make_kernel_calls s)))%nat
  ∧ (is_Some (cached s self ("map_call_knl_" +:+ operation_name id)) →
     make_kernel_calls
       (call_each (CElementwiseUnaryFunction self id) queue args s)
     = make_kernel_calls s).
Proof.
  set (f := CElementwiseUnaryFunction self id).
  set (key := "map_call_knl_" +:+ operation_name id).
  assert (Hown : own_call f = true) by done.
  assert (Hcached : ∀ args s,
            is_Some (cached s self key) →
            make_kernel_calls (call_each f queue args s)
            = make_kernel_calls s).
  { clear args s. induction args as [|a args IH]; intros s Hc; [done|].
    cbn [call_each].
    destruct (call_store f queue [a] [] s Hown)
      as [H|[(w & H)|(w & self' & id' & _ & _ & Hnone)]].
    - rewrite H. by apply IH.
    - rewrite H. rewrite IH; [done|]. by rewrite cached_with_world.
    - change (cached s self key = None) in Hnone.
      rewrite Hnone in Hc. by destruct Hc. }
  split; [|apply Hcached].
  revert s. induction args as [|a args IH]; intros s; [cbn; lia|].
  cbn [call_each].
  destruct (call_store f queue [a] [] s Hown)
    as [H|[(w & H)|(w & self' & id' & _ & H & Hnone)]].
  - rewrite H. apply IH.
  - rewrite H. etrans; [apply IH|]. done.
  - rewrite H. rewrite Hcached.
    + cbn. rewrite length_app. cbn. lia.
    + rewrite cached_with_world. eexists.
      apply (cached_store_with_kernel f s).
Qed.

(** X16. The kernel cache belongs to the function object: two elementwise
    functions of the same identifier that are different objects, neither
    with a cached kernel, each build their own kernel when called on an
    array, and each caches it on itself. *)
Theorem kernel_cache_is_per_object (self1 self2 : loc) (id : string)
    (queue : Queue) (arg1 arg2 : Value) s :
  self1 ≠ self2 →
  array_argument arg1 →
  array_argument arg2 →
  let key := "map_call_knl_" +:+ operation_name id in
  cached s self1 key = None →
  cached s self2 key = None →
  let s1 := snd (call (CElementwiseUnaryFunction self1 id) queue [arg1] [] s) in
  let s2 := snd (call (CElementwiseUnaryFunction self2 id) queue [arg2] [] s1) in
  cached s1 self1 key = Some (elementwise_kernel (operation_name id))
  ∧ cached s1 self2 key = None
  ∧ cached s2 self1 key = Some (elementwise_kernel (operation_name id))
  ∧ cached s2 self2 key = Some (elementwise_kernel (operation_name id))
  ∧ length (make_kernel_calls s2) = S (S (length (make_kernel_calls s))).
Proof.
  intros Hne Harg1 Harg2 key Hc1 Hc2 s1 s2.
  set (f1 := CElementwiseUnaryFunction self1 id).
  set (f2 := CElementwiseUnaryFunction self2 id).
  assert (Hs1 : s1 = with_world
                  (snd (run_kernel (elementwise_kernel (operation_name id))
                          queue arg1 (world s)))
                  (store_with_kernel f1 s)).
  { unfold s1. rewrite (call_array_uncached self1 id queue arg1 s Harg1 Hc1).
    by rewrite in_world_store. }
  assert (Hc11 : cached s1 self1 key
                 = Some (elementwise_kernel (operation_name id))).
  { rewrite Hs1, cached_with_world. apply (cached_store_with_kernel f1 s). }
  assert (Hc12 : cached s1 self2 key = None).
  { rewrite Hs1, cached_with_world. unfold cached, store_with_kernel.
    cbn [memoize_in_dicts object_id f1]. by rewrite lookup_insert_ne. }
  assert (Hs2 : s2 = with_world
                  (snd (run_kernel (elementwise_kernel (operation_name id))
                          queue arg2 (world s1)))
                  (store_with_kernel f2 s1)).
  { unfold s2.
    rewrite (call_array_uncached self2 id queue arg2 s1 Harg2 Hc12).
    by rewrite in_world_store. }
  split; [done|]. split; [done|]. split; [|split].
  - rewrite Hs2, cached_with_world.
    by apply (cached_store_with_kernel_other f2 s1).
  - rewrite Hs2, cached_with_world. apply (cached_store_with_kernel f2 s1).
  - rewrite Hs2, Hs1. cbn. rewrite !length_app. cbn. lia.
Qed.

(** X17. A function is shared by the versions of a registry, its kernel
    with it: where [R] binds an identifier to an elementwise function and
    [R2 = R.register(g)], lookup of the identifier in [R] and in [R2]
    returns the same object, and once it has been called on an array
    through [R], a call on an array through [R2] runs the cached kernel and
    builds none. *)
Theorem kernel_shared_by_registry_versions R g s m (k : string)
    (self : loc) (id : string) (queue : Queue) (arg1 arg2 : Value) :
  mapping s R = Some m →
  m !! k = Some (CElementwiseUnaryFunction self id) →
  m !! identifier g = None →
  array_argument arg1 →
  array_argument arg2 →
  ∃ R2 s2 f,
    register R g s = (Return R2, s2)
    ∧ getitem R k s2 = (Return f, s2)
    ∧ let s3 := snd (call f queue [arg1] [] s2) in
      ∃ knl1,
        getitem R2 k s3 = (Return f, s3)
        ∧ cached s3 (object_id f)
            ("map_call_knl_" +:+ operation_name (identifier f)) = Some knl1
        ∧ call f queue [arg2] [] s3 = in_world (run_kernel knl1 queue arg2) s3
        ∧ make_kernel_calls (snd (call f queue [arg2] [] s3))
          = make_kernel_calls s3.
Proof.
  intros Hm Hk Hg Harg1 Harg2.
  set (f := CElementwiseUnaryFunction self id).
  pose proof (register_fresh R g s m Hm Hg) as Hreg.
  set (R2 := mkFunctionRegistry (fresh (dom (dicts s)))) in *.
  set (s2 := with_dicts _ s) in *.
  assert (Hm2 : mapping s2 R2 = Some (<[identifier g := g]> m)).
  { unfold mapping, s2. cbn. apply lookup_insert_eq. }
  assert (HmR : mapping s2 R = Some m).
  { unfold mapping, s2. cbn. rewrite lookup_insert_ne; [done|].
    by apply (fresh_dict_ne _ _ m). }
  exists R2, s2, f. split; [done|].
  split; [by apply (getitem_bound R s2 m k f HmR)|].
  intros s3.
  assert (Hd3 : dicts s3 = dicts s2).
  { destruct (call_store f queue [arg1] [] s2 eq_refl)
      as [H|[(w & H)|(w & ? & ? & _ & H & _)]]; fold s3 in H; by rewrite H. }
  assert (Hc3 : is_Some (cached s3 (object_id f)
                  ("map_call_knl_" +:+ operation_name (identifier f)))).
  { unfold s3, f. cbn [object_id identifier].
    destruct (cached s2 self ("map_call_knl_" +:+ operation_name id))
      as [knl0|] eqn:Hc.
    - rewrite (call_array_cached self id queue arg1 s2 knl0 Harg1 Hc).
      rewrite in_world_store. cbn [snd]. rewrite cached_with_world.
      rewrite Hc. by eexists.
    - rewrite (call_array_uncached self id queue arg1 s2 Harg1 Hc).
      rewrite in_world_store. cbn [snd]. rewrite cached_with_world.
      eexists.
      apply (cached_store_with_kernel (CElementwiseUnaryFunction self id) s2). }
  destruct Hc3 as [knl1 Hc3]. exists knl1.
  split.
  { apply (getitem_bound R2 s3 (<[identifier g := g]> m) k f).
    - unfold mapping. rewrite Hd3. exact Hm2.
    - rewrite lookup_insert_ne; [done|]. intros Heq. congruence. }
  split; [done|].
  pose proof (call_array_cached self id queue arg2 s3 knl1 Harg2 Hc3)
    as Hcall.
  fold f in Hcall. rewrite Hcall.
  split; [done|]. by rewrite in_world_store.
Qed.

End CallProperties.

(** * The properties at concrete inputs *)

#[local] Existing Instance Example.runtime.
#[local] Existing Instance Example.implementations.

(** Witness of [register_copy_on_write]: registering a Bessel function in
    a registry that binds only ["sin"]. *)
Lemma register_copy_on_write_witness :
  mapping Example.small_store Example.small = Some Example.small_mapping
  ∧ Example.small_mapping !! identifier Example.bessel_j = None
  ∧ ∃ R2 s2,
      register Example.small Example.bessel_j Example.small_store
      = (Return R2, s2)
      ∧ id_to_function R2 ≠ id_to_function Example.small
      ∧ contains R2 (identifier Example.bessel_j) s2 = (Return true, s2)
      ∧ getitem R2 (identifier Example.bessel_j) s2
        = (Return Example.bessel_j, s2)
      ∧ (∀ k g, Example.small_mapping !! k = Some g
                → getitem R2 k s2 = (Return g, s2))
      ∧ mapping s2 Example.small = Some Example.small_mapping
      ∧ (∀ k, fst (contains Example.small k s2)
              = fst (contains Example.small k Example.small_store))
      ∧ fst (contains Example.small (identifier Example.bessel_j) s2)
        = Return false
      ∧ (∀ d, d ≠ id_to_function R2
              → dicts s2 !! d = dicts Example.small_store !! d)
      ∧ memoize_in_dicts s2 = memoize_in_dicts Example.small_store
      ∧ make_kernel_calls s2 = make_kernel_calls Example.small_store
      ∧ world s2 = world Example.small_store.
Proof.
  split; [reflexivity|]. split; [reflexivity|].
  apply (register_copy_on_write Example.small Example.bessel_j
           Example.small_store Example.small_mapping); reflexivity.
Defined.

(** Witness of [register_duplicate_fails]: a second function of identifier
    ["sin"], another object than the one registered. *)
Lemma register_duplicate_fails_witness :
  mapping Example.small_store Example.small = Some Example.small_mapping
  ∧ Example.small_mapping !! identifier Example.other_sin
    = Some (CElementwiseUnaryFunction 0 "sin")
  ∧ register Example.small Example.other_sin Example.small_store
    = (Raise (ValueError "function 'sin' is already registered"),
       Example.small_store).
Proof.
  split; [reflexivity|]. split; [reflexivity|].
  apply (register_duplicate_fails Example.small Example.other_sin
           Example.small_store Example.small_mapping
           (CElementwiseUnaryFunction 0 "sin")); reflexivity.
Defined.

(** Witness of [lookup_total]. *)
Lemma lookup_total_witness :
  mapping Example.small_store Example.small = Some Example.small_mapping
  ∧ keyed_by_identifier Example.small_mapping
  ∧ lookup_total_at Example.small Example.small_store "sin".
Proof.
  assert (Hkeys : keyed_by_identifier Example.small_mapping).
  { apply (bool_decide_unpack _). vm_compute. exact I. }
  split; [reflexivity|]. split; [exact Hkeys|].
  apply (lookup_total Example.small Example.small_store
           Example.small_mapping "sin"); [reflexivity|exact Hkeys].
Defined.

(** C3 as stated fails on a registry constructed on a dict whose key is not
    the identifier of the function bound to it: ["a"] is contained, and
    lookup returns a function whose identifier is ["b"]. *)
Lemma lookup_total_fails_on_mismatched_key :
  ¬ lookup_total_at Example.mismatched Example.mismatched_store "a".
Proof.
  intros [[_ (f & Hget & Hid)] | [Hin _]].
  - vm_compute in Hget. injection Hget as <-. discriminate Hid.
  - vm_compute in Hin. discriminate Hin.
Qed.

(** Witness of [kernel_built_at_most_once]: [fabs] called twice on device
    arrays, starting without any cached kernel. *)
Lemma kernel_built_at_most_once_witness :
  array_argument (Example.DeviceArray [-3; 4]%Z)
  ∧ array_argument (Example.DeviceArray [5]%Z)
  ∧ let f := CElementwiseUnaryFunction 2 "fabs" in
    let op := if String.eqb "fabs" "fabs" then "abs" else "fabs" in
    let s := initial_store [] in
    let s1 := snd (call f 0 [Example.DeviceArray [-3; 4]%Z] [] s) in
    let s2 := snd (call f 0 [Example.DeviceArray [5]%Z] [] s1) in
    (∀ knl0,
       cached s 2 ("map_call_knl_" +:+ op) = Some knl0 →
       call f 0 [Example.DeviceArray [-3; 4]%Z] [] s
       = in_world (run_kernel knl0 0 (Example.DeviceArray [-3; 4]%Z)) s
       ∧ make_kernel_calls s1 = make_kernel_calls s)
    ∧ (cached s 2 ("map_call_knl_" +:+ op) = None →
       fst (call f 0 [Example.DeviceArray [-3; 4]%Z] [] s)
       = fst (run_kernel (elementwise_kernel op) 0
                (Example.DeviceArray [-3; 4]%Z) (world s))
       ∧ (∃ built,
            make_kernel_calls s1 = make_kernel_calls s ++ [built]
            ∧ lp_split_iname built "i" 128 "g.0" "l.0"
              = elementwise_kernel op)
       ∧ cached s1 2 ("map_call_knl_" +:+ op)
         = Some (elementwise_kernel op))
    ∧ (∃ knl1,
         cached s1 2 ("map_call_knl_" +:+ op) = Some knl1
         ∧ cached s2 2 ("map_call_knl_" +:+ op) = Some knl1
         ∧ fst (call f 0 [Example.DeviceArray [5]%Z] [] s1)
           = fst (run_kernel knl1 0 (Example.DeviceArray [5]%Z) (world s1)))
    ∧ make_kernel_calls s2 = make_kernel_calls s1
    ∧ (length (make_kernel_calls s2) ≤ S (length (make_kernel_calls s)))%nat.
Proof.
  assert (H1 : array_argument (Example.DeviceArray [-3; 4]%Z)).
  { split; [reflexivity|discriminate]. }
  assert (H2 : array_argument (Example.DeviceArray [5]%Z)).
  { split; [reflexivity|discriminate]. }
  split; [exact H1|]. split; [exact H2|].
  exact (kernel_built_at_most_once 2 "fabs" 0
           (Example.DeviceArray [-3; 4]%Z) (Example.DeviceArray [5]%Z)
           (initial_store []) H1 H2).
Defined.

(** Witness of [scalar_fast_path]: [fabs] of the integer [-3] is what
    numpy's [fabs] returns, the float [3]. *)
Lemma scalar_fast_path_witness :
  scalar_argument (Example.Int (-3))
  ∧ call Example.fabs 0 [Example.Int (-3)] [] Example.small_store
    = (Return (Example.Float 3), Example.small_store)
  ∧ (∀ func, numpy "fabs" = Some func →
       call Example.fabs 0 [Example.Int (-3)] [] Example.small_store
       = (func (Example.Int (-3)), Example.small_store))
  ∧ (∀ s', fst (call Example.fabs 0 [Example.Int (-3)] [] s')
           = fst (call Example.fabs 0 [Example.Int (-3)] []
                       Example.small_store)).
Proof.
  assert (H : scalar_argument (Example.Int (-3))) by (left; reflexivity).
  split; [exact H|].
  exact (scalar_fast_path 2 "fabs" 0 (Example.Int (-3))
           Example.small_store H).
Defined.

(** Witness of [unary_result_dofdesc]: no descriptor, and two. *)
Lemma unary_result_dofdesc_witness :
  (length ([] : list DOFDesc) ≠ 1
   ∧ get_result_dofdesc (CElementwiseUnaryFunction 3 "sin") []
     = Raise AssertionError)
  ∧ (length ["vol"; "all_faces"] ≠ 1
     ∧ get_result_dofdesc (CElementwiseUnaryFunction 3 "sin")
         ["vol"; "all_faces"]
       = Raise AssertionError).
Proof.
  split.
  - split; [discriminate|].
    apply (proj2 (unary_result_dofdesc 3 "sin")). discriminate.
  - split; [discriminate|].
    apply (proj2 (unary_result_dofdesc 3 "sin")). discriminate.
Defined.

(** Witness of [bessel_result_dofdesc]: one descriptor. *)
Lemma bessel_result_dofdesc_witness :
  length ["vol"] ≠ 2
  ∧ get_result_dofdesc (CBesselFunction 5 "bessel_j") ["vol"]
    = Raise AssertionError.
Proof.
  split; [discriminate|].
  apply (proj2 (bessel_result_dofdesc 5 "bessel_j")). discriminate.
Defined.

(** Witness of [not_callable_raises]: a Bessel function called with one
    positional and one keyword argument. *)
Lemma not_callable_raises_witness :
  binds_keywords [("order", Example.Int 2)] = true
  ∧ ∃ e,
      call Example.bessel_j 0 [Example.Int 1] [("order", Example.Int 2)]
        Example.small_store
      = (Raise e, Example.small_store)
      ∧ isinstance_TypeError e = true
      ∧ e = TypeError "function 'bessel_j' is not callable".
Proof.
  assert (H : binds_keywords [("order", Example.Int 2)] = true)
    by reflexivity.
  split; [exact H|].
  destruct (proj1 (proj2 (not_callable_raises (RT:=Example.runtime)
                            (IM:=Example.implementations)))
              1 "bessel_j" 0
              [Example.Int 1] [("order", Example.Int 2)] Example.small_store)
    as (e & Hcall & Htype & Hmsg).
  exists e. split; [exact Hcall|]. split; [exact Htype|exact (Hmsg H)].
Defined.

(** C6 as stated fails where a keyword argument is named [queue]: the call
    [bessel_j(queue, queue=1)] does not reach the body of [__call__], and
    the TypeError it raises is that of binding the arguments, not the one
    that names the function. *)
Lemma not_callable_fails_on_keyword_queue :
  call Example.bessel_j 0 [] [("queue", Example.Int 1)] Example.small_store
  = (Raise SignatureTypeError, Example.small_store)
  ∧ call Example.bessel_j 0 [] [("queue", Example.Int 1)] Example.small_store
    ≠ (Raise (TypeError "function 'bessel_j' is not callable"),
       Example.small_store).
Proof. split; [reflexivity|]. cbn. intros [=]. Qed.


(** Witness of [fabs_remapped_on_array_path_only]: on the integer [-3] the
    result is the float that numpy's [fabs] gives, not the integer that its
    [abs] gives; on a device array the kernel of [abs] is built. *)
Lemma fabs_remapped_on_array_path_only_witness :
  (scalar_argument (Example.Int (-3))
   ∧ call Example.fabs 0 [Example.Int (-3)] [] Example.small_store
     = (Return (Example.Float 3), Example.small_store))
  ∧ (array_argument (Example.DeviceArray [-3; 4]%Z)
     ∧ cached Example.small_store 2 "map_call_knl_abs" = None
     ∧ call Example.fabs 0 [Example.DeviceArray [-3; 4]%Z] []
         Example.small_store
       = in_world (run_kernel (elementwise_kernel "abs") 0
                     (Example.DeviceArray [-3; 4]%Z))
                  (store_with_kernel Example.fabs Example.small_store)
     ∧ cached (snd (call Example.fabs 0 [Example.DeviceArray [-3; 4]%Z] []
                         Example.small_store))
              2 "map_call_knl_abs"
       = Some (elementwise_kernel "abs")).
Proof.
  assert (H1 : scalar_argument (Example.Int (-3))) by (left; reflexivity).
  assert (H2 : array_argument (Example.DeviceArray [-3; 4]%Z)).
  { split; [reflexivity|discriminate]. }
  assert (H3 : cached Example.small_store 2 "map_call_knl_abs" = None)
    by reflexivity.
  split.
  - split; [exact H1|].
    exact (proj1 (fabs_remapped_on_array_path_only 2 0 Example.small_store)
             (Example.Int (-3)) H1).
  - split; [exact H2|]. split; [exact H3|].
    exact (proj2 (fabs_remapped_on_array_path_only 2 0 Example.small_store)
             (Example.DeviceArray [-3; 4]%Z) H2 H3).
Defined.

(** Witness of [contains_agrees_with_getitem]. *)
Lemma contains_agrees_with_getitem_witness :
  mapping Example.small_store Example.small = Some Example.small_mapping
  ∧ ∃ b : bool,
      contains Example.small "cos" Example.small_store
      = (Return b, Example.small_store)
      ∧ (b = true
         ↔ ∃ f, getitem Example.small "cos" Example.small_store
                = (Return f, Example.small_store))
      ∧ (b = false
         ↔ getitem Example.small "cos" Example.small_store
           = (Raise (unknown_function "cos"), Example.small_store)).
Proof.
  split; [reflexivity|].
  apply (contains_agrees_with_getitem Example.small Example.small_store
           Example.small_mapping "cos"); reflexivity.
Defined.

(** Witness of [register_adds_exactly_one]. *)
Lemma register_adds_exactly_one_witness :
  mapping Example.small_store Example.small = Some Example.small_mapping
  ∧ Example.small_mapping !! identifier Example.bessel_j = None
  ∧ ∃ R2 s2,
      register Example.small Example.bessel_j Example.small_store
      = (Return R2, s2)
      ∧ mapping s2 R2
        = Some (<[identifier Example.bessel_j := Example.bessel_j]>
                  Example.small_mapping)
      ∧ size (<[identifier Example.bessel_j := Example.bessel_j]>
                Example.small_mapping)
        = S (size Example.small_mapping)
      ∧ (∀ k, k ≠ identifier Example.bessel_j →
           fst (contains R2 k s2)
           = fst (contains Example.small k Example.small_store)
           ∧ fst (getitem R2 k s2)
             = fst (getitem Example.small k Example.small_store)).
Proof.
  split; [reflexivity|]. split; [reflexivity|].
  apply (register_adds_exactly_one Example.small Example.bessel_j
           Example.small_store Example.small_mapping); reflexivity.
Defined.

(** Witness of [register_commutes]. *)
Lemma register_commutes_witness :
  mapping Example.small_store Example.small = Some Example.small_mapping
  ∧ Example.small_mapping !! identifier Example.bessel_j = None
  ∧ Example.small_mapping !! identifier Example.cos = None
  ∧ identifier Example.bessel_j ≠ identifier Example.cos
  ∧ ∃ Rfg sfg Rgf sgf,
      (R1 ← register Example.small Example.bessel_j; register R1 Example.cos)
        Example.small_store = (Return Rfg, sfg)
      ∧ (R1 ← register Example.small Example.cos;
         register R1 Example.bessel_j)
          Example.small_store = (Return Rgf, sgf)
      ∧ mapping sfg Rfg
        = Some (<[identifier Example.cos := Example.cos]>
                  (<[identifier Example.bessel_j := Example.bessel_j]>
                     Example.small_mapping))
      ∧ mapping sgf Rgf = mapping sfg Rfg.
Proof.
  assert (Hne : identifier Example.bessel_j ≠ identifier Example.cos)
    by discriminate.
  split; [reflexivity|]. split; [reflexivity|]. split; [reflexivity|].
  split; [exact Hne|].
  apply (register_commutes Example.small Example.bessel_j Example.cos
           Example.small_store Example.small_mapping);
    [reflexivity|reflexivity|reflexivity|exact Hne].
Defined.

(** Witness of [register_siblings_independent]. *)
Lemma register_siblings_independent_witness :
  mapping Example.small_store Example.small = Some Example.small_mapping
  ∧ Example.small_mapping !! identifier Example.bessel_j = None
  ∧ Example.small_mapping !! identifier Example.cos = None
  ∧ ∃ R1 s1 R2 s2,
      register Example.small Example.bessel_j Example.small_store
      = (Return R1, s1)
      ∧ register Example.small Example.cos s1 = (Return R2, s2)
      ∧ mapping s2 Example.small = Some Example.small_mapping
      ∧ mapping s2 R1
        = Some (<[identifier Example.bessel_j := Example.bessel_j]>
                  Example.small_mapping)
      ∧ mapping s2 R2
        = Some (<[identifier Example.cos := Example.cos]>
                  Example.small_mapping)
      ∧ getitem R1 (identifier Example.bessel_j) s2
        = (Return Example.bessel_j, s2)
      ∧ getitem R2 (identifier Example.cos) s2 = (Return Example.cos, s2)
      ∧ (identifier Example.bessel_j ≠ identifier Example.cos →
           contains R1 (identifier Example.cos) s2 = (Return false, s2)
           ∧ contains R2 (identifier Example.bessel_j) s2
             = (Return false, s2)).
Proof.
  split; [reflexivity|]. split; [reflexivity|]. split; [reflexivity|].
  apply (register_siblings_independent Example.small Example.bessel_j
           Example.cos Example.small_store Example.small_mapping);
    reflexivity.
Defined.

(** Witness of [register_external_function_duplicate]. *)
Lemma register_external_function_duplicate_witness :
  mapping Example.small_store Example.small = Some Example.small_mapping
  ∧ Example.small_mapping !! "sin" = Some (CElementwiseUnaryFunction 0 "sin")
  ∧ ∃ s',
      register_external_function Example.small "sin" Example.count_args
        "vol" Example.small_store
      = (Raise (already_registered "sin"), s')
      ∧ dicts s' = dicts Example.small_store
      ∧ next_object s' = S (next_object Example.small_store)
      ∧ memoize_in_dicts s' = memoize_in_dicts Example.small_store
      ∧ make_kernel_calls s' = make_kernel_calls Example.small_store
      ∧ world s' = world Example.small_store.
Proof.
  split; [reflexivity|]. split; [reflexivity|].
  apply (register_external_function_duplicate (RT:=Example.runtime)
           Example.small Example.small_store Example.small_mapping
           (CElementwiseUnaryFunction 0 "sin") "sin" Example.count_args
           "vol"); reflexivity.
Defined.

(** Witness of [new_registry_is_empty]: the registry that was there keeps
    its mapping. *)
Lemma new_registry_is_empty_witness :
  is_Some (mapping Example.small_store Example.small)
  ∧ ∃ R s',
      FunctionRegistry_init None Example.small_store = (Return R, s')
      ∧ mapping s' Example.small
        = mapping Example.small_store Example.small.
Proof.
  assert (H : is_Some (mapping Example.small_store Example.small))
    by (eexists; reflexivity).
  split; [exact H|].
  destruct (new_registry_is_empty Example.small_store)
    as (R & s' & Hinit & _ & _ & Hold & _).
  exists R, s'. split; [exact Hinit|exact (Hold Example.small H)].
Defined.

(** Witness of [register_keeps_keys]. *)
Lemma register_keeps_keys_witness :
  mapping Example.small_store Example.small = Some Example.small_mapping
  ∧ keyed_by_identifier Example.small_mapping
  ∧ Example.small_mapping !! identifier Example.bessel_j = None
  ∧ ∃ R2 s2 m2,
      register Example.small Example.bessel_j Example.small_store
      = (Return R2, s2)
      ∧ mapping s2 R2 = Some m2
      ∧ keyed_by_identifier m2
      ∧ ∀ k, lookup_total_at R2 s2 k.
Proof.
  assert (Hkeys : keyed_by_identifier Example.small_mapping).
  { apply (bool_decide_unpack _). vm_compute. exact I. }
  split; [reflexivity|]. split; [exact Hkeys|]. split; [reflexivity|].
  apply (register_keeps_keys Example.small Example.bessel_j
           Example.small_store Example.small_mapping);
    [reflexivity|exact Hkeys|reflexivity].
Defined.

(** Witness of [lookup_miss_is_a_KeyError]. *)
Lemma lookup_miss_is_a_KeyError_witness :
  mapping Example.small_store Example.small = Some Example.small_mapping
  ∧ Example.small_mapping !! "cos" = None
  ∧ try_except (getitem Example.small "cos") isinstance_KeyError
      Example.fallback Example.small_store
    = Example.fallback Example.small_store
  ∧ (isinstance_TypeError (unknown_function "cos") = false →
       try_except (getitem Example.small "cos") isinstance_TypeError
         Example.fallback Example.small_store
       = (Raise (unknown_function "cos"), Example.small_store)).
Proof.
  split; [reflexivity|]. split; [reflexivity|].
  apply (lookup_miss_is_a_KeyError Example.small Example.small_store
           Example.small_mapping "cos" Example.fallback
           isinstance_TypeError); reflexivity.
Defined.

(** Witness of [register_all_succeeds]. *)
Lemma register_all_succeeds_witness :
  mapping Example.small_store Example.small = Some Example.small_mapping
  ∧ NoDup (identifier <$> [Example.bessel_j; Example.cos])
  ∧ (∀ f, f ∈ [Example.bessel_j; Example.cos] →
       Example.small_mapping !! identifier f = None)
  ∧ ∃ R' s',
      register_all Example.small [Example.bessel_j; Example.cos]
        Example.small_store = (Return R', s')
      ∧ mapping s' R'
        = Some (foldl (fun acc f => <[identifier f := f]> acc)
                  Example.small_mapping [Example.bessel_j; Example.cos])
      ∧ mapping s' Example.small = Some Example.small_mapping
      ∧ (∀ f, f ∈ [Example.bessel_j; Example.cos] →
           getitem R' (identifier f) s' = (Return f, s'))
      ∧ (∀ k g, Example.small_mapping !! k = Some g →
           getitem R' k s' = (Return g, s')).
Proof.
  assert (Hnd : NoDup (identifier <$> [Example.bessel_j; Example.cos])).
  { apply (bool_decide_unpack _). vm_compute. exact I. }
  assert (Hnew : ∀ f, f ∈ [Example.bessel_j; Example.cos] →
                   Example.small_mapping !! identifier f = None).
  { intros f Hf.
    repeat (apply elem_of_cons in Hf as [->|Hf]); [reflexivity..|].
    inversion Hf. }
  split; [reflexivity|]. split; [exact Hnd|]. split; [exact Hnew|].
  apply (register_all_succeeds [Example.bessel_j; Example.cos] Example.small
           Example.small_store Example.small_mapping);
    [reflexivity|exact Hnd|exact Hnew].
Defined.

(** Witness of [register_all_stops_at_duplicate]: the second function of
    the list has the identifier that the receiver binds. *)
Lemma register_all_stops_at_duplicate_witness :
  mapping Example.small_store Example.small = Some Example.small_mapping
  ∧ NoDup (identifier <$> [Example.bessel_j])
  ∧ (∀ g, g ∈ [Example.bessel_j] →
       Example.small_mapping !! identifier g = None)
  ∧ (is_Some (Example.small_mapping !! identifier Example.other_sin)
     ∨ identifier Example.other_sin ∈ identifier <$> [Example.bessel_j])
  ∧ ∃ s',
      register_all Example.small
        ([Example.bessel_j] ++ Example.other_sin :: [Example.cos])
        Example.small_store
      = (Raise (already_registered (identifier Example.other_sin)), s')
      ∧ mapping s' Example.small = Some Example.small_mapping.
Proof.
  assert (Hnd : NoDup (identifier <$> [Example.bessel_j])).
  { apply (bool_decide_unpack _). vm_compute. exact I. }
  assert (Hnew : ∀ g, g ∈ [Example.bessel_j] →
                   Example.small_mapping !! identifier g = None).
  { intros g Hg.
    repeat (apply elem_of_cons in Hg as [->|Hg]); [reflexivity..|].
    inversion Hg. }
  assert (Htaken :
            is_Some (Example.small_mapping !! identifier Example.other_sin)
            ∨ identifier Example.other_sin
              ∈ identifier <$> [Example.bessel_j]).
  { left. eexists. reflexivity. }
  split; [reflexivity|]. split; [exact Hnd|]. split; [exact Hnew|].
  split; [exact Htaken|].
  apply (register_all_stops_at_duplicate [Example.bessel_j] [Example.cos]
           Example.other_sin Example.small Example.small_store
           Example.small_mapping);
    [reflexivity|exact Hnd|exact Hnew|exact Htaken].
Defined.

(** Witness of [base_registry_contents]: [sin] is among the five. *)
Lemma base_registry_contents_witness :
  "sin" ∈ ["sqrt"; "exp"; "fabs"; "sin"; "cos"]
  ∧ ∃ bfr s0 self,
      base_function_registry [] = (Return bfr, s0)
      ∧ getitem bfr "sin" s0
        = (Return (CElementwiseUnaryFunction self "sin"), s0).
Proof.
  assert (Hin : "sin" ∈ ["sqrt"; "exp"; "fabs"; "sin"; "cos"]).
  { apply (bool_decide_unpack _). vm_compute. exact I. }
  split; [exact Hin|].
  destruct (base_registry_contents (RT:=Example.runtime) [])
    as (bfr & s0 & Hbfr & _ & Hfive & _).
  destruct (Hfive "sin" Hin) as [self Hget].
  exists bfr, s0, self. split; [exact Hbfr|exact Hget].
Defined.

(** Witness of [base_registry_extension]. *)
Lemma base_registry_extension_witness :
  ("myfunc" ∉ ["sqrt"; "exp"; "fabs"; "sin"; "cos"; "bessel_j"; "bessel_y"])
  ∧ ∃ bfr s0 R2 s2 f,
      base_function_registry [] = (Return bfr, s0)
      ∧ register_external_function bfr "myfunc" Example.count_args "vol" s0
        = (Return R2, s2)
      ∧ contains R2 "myfunc" s2 = (Return true, s2)
      ∧ getitem R2 "myfunc" s2 = (Return f, s2)
      ∧ identifier f = "myfunc"
      ∧ supports_codegen f = Some false
      ∧ (∀ arg_dds, get_result_dofdesc f arg_dds = Return "vol")
      ∧ (∀ queue args kwargs s,
           binds_keywords kwargs = true →
           call f queue args kwargs s
           = py_call Example.count_args queue args kwargs s)
      ∧ (∀ k, k ≠ "myfunc" →
           fst (getitem R2 k s2) = fst (getitem bfr k s0))
      ∧ contains bfr "myfunc" s2 = (Return false, s2)
      ∧ getitem bfr "myfunc" s2 = (Raise (unknown_function "myfunc"), s2).
Proof.
  assert (Hid : "myfunc" ∉ ["sqrt"; "exp"; "fabs"; "sin"; "cos";
                            "bessel_j"; "bessel_y"]).
  { apply (bool_decide_unpack _). vm_compute. exact I. }
  split; [exact Hid|].
  exact (base_registry_extension (RT:=Example.runtime) [] "myfunc"
           Example.count_args "vol" Hid).
Defined.

(** Witness of [call_leaves_registries]: [cos] called on an array. *)
Lemma call_leaves_registries_witness :
  own_call Example.cos = true
  ∧ let s' := snd (call Example.cos 0 [Example.DeviceArray [2]%Z] []
                     Example.small_store) in
    dicts s' = dicts Example.small_store
    ∧ next_object s' = next_object Example.small_store
    ∧ ∀ R k, mapping s' R = mapping Example.small_store R
             ∧ fst (contains R k s') = fst (contains R k Example.small_store)
             ∧ fst (getitem R k s') = fst (getitem R k Example.small_store).
Proof.
  split; [reflexivity|].
  exact (call_leaves_registries Example.cos 0 [Example.DeviceArray [2]%Z] []
           Example.small_store eq_refl).
Defined.

(** Why [call_leaves_registries] is about the module's own calls: the
    callable of an external function is the caller's code, and this one
    rebinds ["sin"] in the dict of [small]. *)
Lemma external_call_may_rebind :
  getitem Example.small "sin" Example.small_store
  = (Return (CElementwiseUnaryFunction 0 "sin"), Example.small_store)
  ∧ fst (getitem Example.small "sin"
           (snd (call Example.rebinder 0 [] [] Example.small_store)))
    = Return (CBesselFunction 8 "sin").
Proof. split; vm_compute; reflexivity. Qed.

(** Witness of [call_builds_at_most_one_kernel]: the kernel cached on
    [fabs] is still cached after a call of [cos] on an array. *)
Lemma call_builds_at_most_one_kernel_witness :
  own_call Example.cos = true
  ∧ cached Example.warm_store 2 "map_call_knl_abs"
    = Some (elementwise_kernel "abs")
  ∧ cached (snd (call Example.cos 0 [Example.DeviceArray [2]%Z] []
                      Example.warm_store))
           2 "map_call_knl_abs"
    = Some (elementwise_kernel "abs").
Proof.
  assert (H : cached Example.warm_store 2 "map_call_knl_abs"
              = Some (elementwise_kernel "abs")) by reflexivity.
  split; [reflexivity|]. split; [exact H|].
  exact (proj1 (proj2 (call_builds_at_most_one_kernel Example.cos 0
                         [Example.DeviceArray [2]%Z] [] Example.warm_store
                         eq_refl))
           2 "map_call_knl_abs" (elementwise_kernel "abs") H).
Defined.

(** Witness of [call_each_builds_at_most_one_kernel]: with the kernel
    cached, three more calls build nothing. *)
Lemma call_each_builds_at_most_one_kernel_witness :
  is_Some (cached Example.warm_store 2
             ("map_call_knl_" +:+ operation_name "fabs"))
  ∧ make_kernel_calls
      (call_each (CElementwiseUnaryFunction 2 "fabs") 0
         [Example.DeviceArray [1]%Z; Example.Int 2; Example.DeviceArray [3]%Z]
         Example.warm_store)
    = make_kernel_calls Example.warm_store.
Proof.
  assert (H : is_Some (cached Example.warm_store 2
                ("map_call_knl_" +:+ operation_name "fabs")))
    by (eexists; reflexivity).
  split; [exact H|].
  exact (proj2 (call_each_builds_at_most_one_kernel 2 "fabs" 0
                  [Example.DeviceArray [1]%Z; Example.Int 2;
                   Example.DeviceArray [3]%Z] Example.warm_store) H).
Defined.

(** Witness of [kernel_cache_is_per_object]: two objects of identifier
    [fabs]. *)
Lemma kernel_cache_is_per_object_witness :
  2 ≠ 9
  ∧ array_argument (Example.DeviceArray [-3; 4]%Z)
  ∧ array_argument (Example.DeviceArray [5]%Z)
  ∧ cached Example.small_store 2 ("map_call_knl_" +:+ operation_name "fabs")
    = None
  ∧ cached Example.small_store 9 ("map_call_knl_" +:+ operation_name "fabs")
    = None
  ∧ let key := "map_call_knl_" +:+ operation_name "fabs" in
    let s1 := snd (call (CElementwiseUnaryFunction 2 "fabs") 0
                     [Example.DeviceArray [-3; 4]%Z] [] Example.small_store) in
    let s2 := snd (call (CElementwiseUnaryFunction 9 "fabs") 0
                     [Example.DeviceArray [5]%Z] [] s1) in
    cached s1 2 key = Some (elementwise_kernel (operation_name "fabs"))
    ∧ cached s1 9 key = None
    ∧ cached s2 2 key = Some (elementwise_kernel (operation_name "fabs"))
    ∧ cached s2 9 key = Some (elementwise_kernel (operation_name "fabs"))
    ∧ length (make_kernel_calls s2)
      = S (S (length (make_kernel_calls Example.small_store))).
Proof.
  assert (H0 : 2 ≠ 9) by discriminate.
  assert (H1 : array_argument (Example.DeviceArray [-3; 4]%Z)).
  { split; [reflexivity|discriminate]. }
  assert (H2 : array_argument (Example.DeviceArray [5]%Z)).
  { split; [reflexivity|discriminate]. }
  split; [exact H0|]. split; [exact H1|]. split; [exact H2|].
  split; [reflexivity|]. split; [reflexivity|].
  exact (kernel_cache_is_per_object 2 9 "fabs" 0
           (Example.DeviceArray [-3; 4]%Z) (Example.DeviceArray [5]%Z)
           Example.small_store H0 H1 H2 eq_refl eq_refl).
Defined.

(** Witness of [kernel_shared_by_registry_versions]: [sin], bound in
    [small], called through [small] and through its extension. *)
Lemma kernel_shared_by_registry_versions_witness :
  mapping Example.small_store Example.small = Some Example.small_mapping
  ∧ Example.small_mapping !! "sin" = Some (CElementwiseUnaryFunction 0 "sin")
  ∧ Example.small_mapping !! identifier Example.bessel_j = None
  ∧ array_argument (Example.DeviceArray [-3; 4]%Z)
  ∧ array_argument (Example.DeviceArray [5]%Z)
  ∧ ∃ R2 s2 f,
      register Example.small Example.bessel_j Example.small_store
      = (Return R2, s2)
      ∧ getitem Example.small "sin" s2 = (Return f, s2)
      ∧ let s3 := snd (call f 0 [Example.DeviceArray [-3; 4]%Z] [] s2) in
        ∃ knl1,
          getitem R2 "sin" s3 = (Return f, s3)
          ∧ cached s3 (object_id f)
              ("map_call_knl_" +:+ operation_name (identifier f))
            = Some knl1
          ∧ call f 0 [Example.DeviceArray [5]%Z] [] s3
            = in_world (run_kernel knl1 0 (Example.DeviceArray [5]%Z)) s3
          ∧ make_kernel_calls
              (snd (call f 0 [Example.DeviceArray [5]%Z] [] s3))
            = make_kernel_calls s3.
Proof.
  assert (H1 : array_argument (Example.DeviceArray [-3; 4]%Z)).
  { split; [reflexivity|discriminate]. }
  assert (H2 : array_argument (Example.DeviceArray [5]%Z)).
  { split; [reflexivity|discriminate]. }
  split; [reflexivity|]. split; [reflexivity|]. split; [reflexivity|].
  split; [exact H1|]. split; [exact H2|].
  exact (kernel_shared_by_registry_versions Example.small Example.bessel_j
           Example.small_store Example.small_mapping "sin" 0 "sin" 0
           (Example.DeviceArray [-3; 4]%Z) (Example.DeviceArray [5]%Z)
           eq_refl eq_refl eq_refl H1 H2).
Defined.
